(** * city_api_server.js: the resilient multi-source fetch orchestrator

    A shallow embedding of [src/city_api_server.js]: the proxy selector
    ([validateProxy], [getValidProxy]), the cached fetcher
    ([axiosWithRotation]), the five category chains ([fetchCityInfo],
    [fetchWeatherData], [fetchNewsData], [fetchEventsData],
    [fetchTrafficData]) and the handler of [GET /api/city/:cityName].

    Asynchronous functions are written in a state-and-exception monad.  The
    state holds the response cache, the clock and the trace of outbound
    effects; everything the outside world decides (upstream answers, probe
    outcomes, random draws, latencies, JavaScript's number formatting) is
    read from a [World].  Console output is not part of the state. *)

From Stdlib Require Import QArith.
From stdpp Require Import base option list strings pretty gmap.

Set Warnings "-register-all".

Local Open Scope string_scope.
Local Open Scope list_scope.
Local Open Scope Z_scope.
Local Open Scope stdpp_scope.

(** ** JavaScript values that can occur in a JSON payload *)

Module Js.

(** A value is what [JSON.parse] can produce, plus [undefined], which
    property access yields for a missing key.  Numbers are rationals (every
    finite double is one); objects are key/value lists in which the first
    binding of a key is the effective one. *)
Inductive value : Type :=
| JUndef
| JNull
| JBool (b : bool)
| JNum (q : Q)
| JStr (s : string)
| JArr (items : list value)
| JObj (fields : list (string * value)).

Definition of_nat (n : nat) : value := JNum (inject_Z (Z.of_nat n)).

(** ToBoolean: [undefined], [null], [false], [0] and the empty string are
    falsy, every array and object is truthy. *)
Definition truthy (v : value) : bool :=
  match v with
  | JUndef | JNull => false
  | JBool b => b
  | JNum q => negb (Qnum q =? 0)
  | JStr s => negb (String.eqb s "")
  | JArr _ | JObj _ => true
  end.

(** [a || b] *)
Definition or_else (a b : value) : value := if truthy a then a else b.

Fixpoint assoc (k : string) (fields : list (string * value)) : value :=
  match fields with
  | [] => JUndef
  | (k', v) :: rest => if String.eqb k k' then v else assoc k rest
  end.

(** [v.k] for the property names the program uses.  Reading a property of
    [undefined] or [null] raises a TypeError ([None]); on an array or a
    string only [length] is defined among those names. *)
Definition get (v : value) (k : string) : option value :=
  match v with
  | JUndef | JNull => None
  | JObj fields => Some (assoc k fields)
  | JArr items => Some (if String.eqb k "length" then of_nat (length items) else JUndef)
  | JStr s => Some (if String.eqb k "length" then of_nat (String.length s) else JUndef)
  | JBool _ | JNum _ => Some JUndef
  end.

(** [v?.k] *)
Definition get_opt (v : value) (k : string) : value :=
  match get v k with
  | Some x => x
  | None => JUndef
  end.

(** [v[0]] *)
Definition first (v : value) : option value :=
  match v with
  | JUndef | JNull => None
  | JArr items => Some (match items with x :: _ => x | [] => JUndef end)
  | JStr s => Some (match s with String c _ => JStr (String c "") | EmptyString => JUndef end)
  | JObj fields => Some (assoc "0" fields)
  | JBool _ | JNum _ => Some JUndef
  end.

Definition has_key (k : string) (v : value) : bool :=
  match v with
  | JObj fields => existsb (fun kv => String.eqb k (fst kv)) fields
  | _ => false
  end.

Fixpoint join (sep : string) (parts : list string) : string :=
  match parts with
  | [] => ""
  | [p] => p
  | p :: rest => p +:+ sep +:+ join sep rest
  end.

Section Conversions.
(** Number::toString and the test [StringToNumber(s) > 0] are the
    engine's; they are parameters here. *)
Variable number_to_string : Q → string.
Variable string_gt0 : string → bool.

(** ToString, as applied by a template literal [`${v}`].  An array is
    joined with commas, [undefined] and [null] elements giving the empty
    string; an object gives "[object Object]", unless it has a key
    [toString] of its own, which hides [Object.prototype.toString] behind
    a value that cannot be called: the conversion then raises a TypeError
    ([None]). *)
Fixpoint to_string (v : value) : option string :=
  match v with
  | JUndef => Some "undefined"
  | JNull => Some "null"
  | JBool true => Some "true"
  | JBool false => Some "false"
  | JNum q => Some (number_to_string q)
  | JStr s => Some s
  | JArr items =>
      option_map (join ",")
        ((fix each (l : list value) : option (list string) :=
            match l with
            | [] => Some []
            | x :: rest =>
                match (match x with
                       | JUndef | JNull => Some ""
                       | _ => to_string x
                       end), each rest with
                | Some s, Some ss => Some (s :: ss)
                | _, _ => None
                end
            end) items)
  | JObj _ => if has_key "toString" v then None else Some "[object Object]"
  end.

(** [v > 0]: [undefined] converts to NaN and [null] to 0, an array or an
    object is converted to a string first. *)
Definition gt0 (v : value) : option bool :=
  match v with
  | JUndef => Some false
  | JNull => Some false
  | JBool b => Some b
  | JNum q => Some (0 <? Qnum q)
  | JStr s => Some (string_gt0 s)
  | JArr _ | JObj _ => option_map string_gt0 (to_string v)
  end.
End Conversions.

End Js.

Import Js.

(** ** The outside world and the server's state *)

(** An entry of [proxyList.json]. *)
Record Proxy : Type := {
  host : string;
  port : Z;
  username : option string;
  password : option string
}.

(** The [proxy] option handed to [axios.get]: host, port and
    [proxy.username ? { username, password } : undefined]. *)
Record ProxyConfig : Type := {
  cfg_host : string;
  cfg_port : Z;
  cfg_auth : option (string * option string)
}.

Definition proxy_config (p : Proxy) : ProxyConfig :=
  {| cfg_host := host p;
     cfg_port := port p;
     cfg_auth := match username p with
                 | Some u => if String.eqb u "" then None else Some (u, password p)
                 | None => None
                 end |}.

(** Outbound effects, newest first in a trace. *)
Inductive event : Type :=
| UserAgentCreated (ua : string)
| Probe (cfg : ProxyConfig)
| Get (url : string) (ua : string) (cfg : option ProxyConfig).

(** What the program cannot decide itself.  Every oracle reads the trace of
    the effects performed so far, so the same request may be answered
    differently at different moments. *)
Record World : Type := {
  (** [process.env] *)
  env : string → option string;
  (** the list in [proxyList.json] *)
  proxy_file : list Proxy;
  (** [Math.random()], read through [Math.floor(r * n)] as a draw modulo [n] *)
  random_draw : list event → nat;
  (** the string of the next [new UserAgent()] *)
  fresh_user_agent : list event → string;
  (** whether a request through the proxy reaches [httpbin.org/ip] in time *)
  probe_ok : list event → ProxyConfig → bool;
  (** the body of the answer to a GET of the URL with the given user agent
      and proxy; [None] for a network error, a timeout or a status that
      axios rejects *)
  upstream : list event → string → string → option ProxyConfig → option value;
  (** milliseconds until the pending network call settles *)
  latency : list event → N;
  (** Number::toString *)
  number_to_string : Q → string;
  (** [StringToNumber(s) > 0] *)
  string_gt0 : string → bool
}.

(** [cache] maps a URL to its payload and the instant it expires;
    [now] is [Date.now()] in milliseconds. *)
Record State : Type := {
  cache : gmap string (value * Z);
  now : Z;
  trace : list event
}.

Definition advance (d : N) (st : State) : State :=
  {| cache := cache st; now := now st + Z.of_N d; trace := trace st |}.

Definition emit (e : event) (st : State) : State :=
  {| cache := cache st; now := now st; trace := e :: trace st |}.

(** A call that went out as [e] and was answered [d] milliseconds later. *)
Definition record (e : event) (d : N) (st : State) : State :=
  emit e (advance d st).

(** ** Counting effects in a trace *)

Definition is_get (url : string) (e : event) : bool :=
  match e with
  | Get u _ _ => String.eqb u url
  | _ => false
  end.

Definition is_probe (e : event) : bool :=
  match e with
  | Probe _ => true
  | _ => false
  end.

Definition is_user_agent (e : event) : bool :=
  match e with
  | UserAgentCreated _ => true
  | _ => false
  end.

(** Upstream calls [axios.get(url, ...)] recorded in a trace. *)
Definition upstream_calls (url : string) (tr : list event) : nat :=
  length (List.filter (is_get url) tr).

(** Probe requests recorded in a trace. *)
Definition probe_attempts (tr : list event) : nat :=
  length (List.filter is_probe tr).

(** User agents generated in a trace. *)
Definition user_agents (tr : list event) : nat :=
  length (List.filter is_user_agent tr).

(** ** Asynchronous code: state and exceptions *)

Inductive exn : Type :=
| Error (msg : string)
| TypeError.

Inductive outcome (A : Type) : Type :=
| Return (a : A)
| Throw (e : exn).
Arguments Return {A} a.
Arguments Throw {A} e.

Definition M (A : Type) : Type := State → outcome A * State.

Definition ret {A} (a : A) : M A := λ st, (Return a, st).

Definition throw {A} (e : exn) : M A := λ st, (Throw e, st).

Definition bind {A B} (m : M A) (k : A → M B) : M B :=
  λ st, match m st with
        | (Return a, st') => k a st'
        | (Throw e, st') => (Throw e, st')
        end.

(** [try { m } catch (error) { h error }] *)
Definition try_catch {A} (m : M A) (h : exn → M A) : M A :=
  λ st, match m st with
        | (Return a, st') => (Return a, st')
        | (Throw e, st') => h e st'
        end.

(** A property access that raises a TypeError when it has no value. *)
Definition lift {A} (o : option A) : M A :=
  match o with
  | Some a => ret a
  | None => throw TypeError
  end.

Notation "x <- m ;; k" := (bind m (λ x, k))
  (at level 100, m at next level, right associativity).
Notation "m ;;; k" := (bind m (λ _, k))
  (at level 100, right associativity).

(** ** The server *)

Section Server.
Variable w : World.

(** [const ENV = process.env.NODE_ENV || "development"] *)
Definition ENV : string :=
  match env w "NODE_ENV" with
  | Some s => if String.eqb s "" then "development" else s
  | None => "development"
  end.

Definition production : bool := String.eqb ENV "production".

(** [proxyList] starts empty and is loaded from [proxyList.json] only
    when [ENV !== "production"]. *)
Definition proxyList : list Proxy :=
  if production then [] else proxy_file w.

(** [`${process.env.KEY}`] *)
Definition env_str (key : string) : string :=
  match env w key with
  | Some s => s
  | None => "undefined"
  end.

Definition str (v : value) : option string :=
  to_string (number_to_string w) v.

(** *** The response cache, [new NodeCache({ stdTTL: 3600 })] *)

Definition stdTTL : Z := 3600.

(** Modelled from the spec: the node-cache package is not part of the
    sources.  A cache entry carries its insertion time and a fixed
    time-to-live; an entry older than its time-to-live is treated as
    absent. *)
Definition unexpired (url : string) (st : State) : bool :=
  match cache st !! url with
  | Some (_, expires) => negb (expires <? now st)
  | None => false
  end.

(** Modelled from the spec: [get(key)] yields the value of a present,
    unexpired entry and [undefined] otherwise. *)
Definition cached (url : string) (st : State) : value :=
  match cache st !! url with
  | Some (v, _) => if unexpired url st then v else JUndef
  | None => JUndef
  end.

Definition cache_get (url : string) : M value :=
  λ st, (Return (cached url st), st).

(** Modelled from the spec: [set(key, value)] stores the value with the
    fixed time-to-live applied at insertion; the last write wins. *)
Definition cache_set (url : string) (v : value) : M unit :=
  λ st, (Return tt,
         {| cache := <[url := (v, now st + stdTTL * 1000)]> (cache st);
            now := now st;
            trace := trace st |}).

(** *** Outbound calls *)

(** [new UserAgent()] *)
Definition new_UserAgent : M string :=
  λ st, let ua := fresh_user_agent w (trace st) in
        (Return ua, emit (UserAgentCreated ua) st).

(** The body of an axios response; the program reads nothing else of it. *)
Record response : Type := { data : value }.

(** [await axios.get("https://httpbin.org/ip", { proxy, timeout: 5000 })] *)
Definition axios_probe (cfg : ProxyConfig) : M unit :=
  λ st, let h := trace st in
        (if probe_ok w h cfg then Return tt else Throw (Error "probe failed"),
         record (Probe cfg) (latency w h) st).

(** [await axios.get(url, { headers, proxy, timeout: 10000 })] *)
Definition axios_get (url ua : string) (cfg : option ProxyConfig) : M response :=
  λ st, let h := trace st in
        (match upstream w h url ua cfg with
         | Some payload => Return {| data := payload |}
         | None => Throw (Error "request failed")
         end,
         record (Get url ua cfg) (latency w h) st).

(** *** Proxy validator and selector *)

Definition validateProxy (proxy : Proxy) : M bool :=
  try_catch (axios_probe (proxy_config proxy) ;;; ret true)
            (λ _, ret false).

(** The [while] loop of [getValidProxy]; [budget] is
    [maxRetries - retries]. *)
Fixpoint getValidProxy_loop (budget : nat) : M Proxy :=
  match budget with
  | O => throw (Error "No valid proxies available after maximum retries.")
  | S budget' =>
      match proxyList with
      | [] => throw (Error "No valid proxies available after maximum retries.")
      | _ :: _ =>
          λ st,
            let randomIndex := (random_draw w (trace st) mod length proxyList)%nat in
            match proxyList !! randomIndex with
            | Some proxy =>
                (valid <- validateProxy proxy ;;
                 if valid then ret proxy else getValidProxy_loop budget') st
            | None => getValidProxy_loop budget' st
            end
      end
  end.

Definition getValidProxy (maxRetries : nat) : M Proxy :=
  if production
  then throw (Error "Proxy rotation is not enabled in production.")
  else getValidProxy_loop maxRetries.

(** *** Resilient fetcher *)

Definition axiosWithRotation (url : string) : M response :=
  userAgent <- new_UserAgent ;;
  cachedData <- cache_get url ;;
  if truthy cachedData then ret {| data := cachedData |}
  else if production then
    try_catch
      (resp <- axios_get url userAgent None ;;
       cache_set url (data resp) ;;;
       ret resp)
      (λ _, throw (Error "Failed to fetch data from the source."))
  else
    try_catch
      (proxy <- getValidProxy 5 ;;
       resp <- axios_get url userAgent (Some (proxy_config proxy)) ;;
       cache_set url (data resp) ;;;
       ret resp)
      (λ _, throw (Error "Failed to fetch data from the source after proxy retries.")).

(** The state in which [axiosWithRotation] reads the cache: its first
    statement has created the user agent. *)
Definition with_user_agent (st : State) : State :=
  emit (UserAgentCreated (fresh_user_agent w (trace st))) st.

(** A fetch that misses the cache reaches its [axios.get(url, ...)]: always
    in production, and in the other modes when [getValidProxy()] hands
    back a proxy. *)
Definition egress_open (st : State) : bool :=
  production ||
  match fst (getValidProxy 5 (with_user_agent st)) with
  | Return _ => true
  | Throw _ => false
  end.


(** The ways a call [axiosWithRotation(url)] started in [st] can go.  In
    each of them the user agent is created first; [before] is the state in
    which [axios.get(url, ...)] is issued, reached from there through
    probes only. *)
Inductive fetch_run (url : string) (st : State) : outcome response → State → Prop :=
| fetch_hit :
    truthy (cached url st) = true →
    fetch_run url st (Return {| data := cached url st |}) (with_user_agent st)
| fetch_blocked (e : exn) (before : State) (probes : list event) :
    truthy (cached url st) = false →
    egress_open st = false →
    cache before = cache st →
    now st ≤ now before →
    trace before = probes ++ trace (with_user_agent st) →
    Forall (λ e, is_probe e = true) probes →
    fetch_run url st (Throw e) before
| fetch_answered (before : State) (probes : list event)
                 (ua : string) (cfg : option ProxyConfig) (payload : value) :
    truthy (cached url st) = false →
    egress_open st = true →
    cache before = cache st →
    now st ≤ now before →
    trace before = probes ++ trace (with_user_agent st) →
    Forall (λ e, is_probe e = true) probes →
    upstream w (trace before) url ua cfg = Some payload →
    fetch_run url st (Return {| data := payload |})
      {| cache := <[url := (payload,
                            now before + Z.of_N (latency w (trace before))
                            + stdTTL * 1000)]> (cache before);
         now := now before + Z.of_N (latency w (trace before));
         trace := Get url ua cfg :: trace before |}
| fetch_failed (e : exn) (before : State) (probes : list event)
               (ua : string) (cfg : option ProxyConfig) :
    truthy (cached url st) = false →
    egress_open st = true →
    cache before = cache st →
    now st ≤ now before →
    trace before = probes ++ trace (with_user_agent st) →
    Forall (λ e, is_probe e = true) probes →
    upstream w (trace before) url ua cfg = None →
    fetch_run url st (Throw e)
      (record (Get url ua cfg) (latency w (trace before)) before).

(** *** Per-category fallback chains *)

(** A [try { body } catch (error) { console.warn(...) }] statement of a
    chain: [Some r] when the body executed [return r], [None] when the
    body ran to its end without returning or raised an exception, in which
    case control continues after the statement. *)
Definition attempt (body : M (option value)) : M (option value) :=
  try_catch body (λ _, ret None).

(** A body whose last statement is [return]. *)
Definition returning (body : M value) : M (option value) :=
  r <- body ;; ret (Some r).

(** [v.slice(0, 10)]: defined on arrays and strings, a TypeError on
    anything else (no JSON value carries a function). *)
Definition slice_0_10 (v : value) : option value :=
  match v with
  | JArr items => Some (JArr (take 10 items))
  | JStr s => Some (JStr (String.substring 0 10 s))
  | _ => None
  end.

(** [v.map(f)]: only an array has [map]. *)
Definition array_map (f : value → option value) (v : value) : option value :=
  match v with
  | JArr items => JArr <$> mapM f items
  | _ => None
  end.

(** **** Weather *)

Definition weatherUrls (cityName : string) : list string :=
  [ "https://api.openweathermap.org/data/2.5/forecast?q=" +:+ cityName
      +:+ "&units=metric&appid=" +:+ env_str "OPENWEATHER_API_KEY";
    "https://api.weatherapi.com/v1/forecast.json?key=" +:+ env_str "WEATHERAPI_KEY"
      +:+ "&q=" +:+ cityName +:+ "&days=7" ].

Definition weather_body (url : string) : M value :=
  resp <- axiosWithRotation url ;;
  ret (JObj [("data", data resp); ("source", JStr url)]).

Definition weather_unavailable : value :=
  JObj [("data", JStr "Weather data unavailable"); ("source", JStr "None")].

(** [for (const url of weatherUrls) { try { ... } catch { ... } }] *)
Fixpoint fetchWeatherData_loop (urls : list string) : M value :=
  match urls with
  | [] => ret weather_unavailable
  | url :: rest =>
      r <- attempt (returning (weather_body url)) ;;
      match r with
      | Some result => ret result
      | None => fetchWeatherData_loop rest
      end
  end.

Definition fetchWeatherData (cityName : string) : M value :=
  fetchWeatherData_loop (weatherUrls cityName).

(** **** News *)

Definition newsUrls (cityName : string) : list string :=
  [ "https://newsapi.org/v2/everything?q=" +:+ cityName
      +:+ "&apiKey=" +:+ env_str "NEWSAPI_KEY";
    "https://gnews.io/api/v4/search?q=" +:+ cityName
      +:+ "&lang=en&token=" +:+ env_str "GNEWS_KEY" ].

(** [response.data.articles.slice(0, 10).map((article) => article.title)] *)
Definition news_titles (payload : value) : option value :=
  articles ← get payload "articles";
  first10 ← slice_0_10 articles;
  array_map (λ article, get article "title") first10.

Definition news_body (url : string) : M value :=
  resp <- axiosWithRotation url ;;
  articles <- lift (news_titles (data resp)) ;;
  ret (JObj [("data", articles); ("source", JStr url)]).

Definition news_unavailable : value :=
  JObj [("data", JStr "News data unavailable"); ("source", JStr "None")].

Fixpoint fetchNewsData_loop (urls : list string) : M value :=
  match urls with
  | [] => ret news_unavailable
  | url :: rest =>
      r <- attempt (returning (news_body url)) ;;
      match r with
      | Some result => ret result
      | None => fetchNewsData_loop rest
      end
  end.

Definition fetchNewsData (cityName : string) : M value :=
  fetchNewsData_loop (newsUrls cityName).

(** **** Events *)

Definition eventsUrl (cityName : string) : string :=
  "https://api.eventful.com/json/events/search?location=" +:+ cityName
    +:+ "&app_key=" +:+ env_str "EVENTS_API_KEY".

(** [`${e.title} at ${e.venue_name}`] *)
Definition event_line (e : value) : option value :=
  title ← get e "title";
  title_text ← str title;
  venue_name ← get e "venue_name";
  venue_text ← str venue_name;
  Some (JStr (title_text +:+ " at " +:+ venue_text)).

(** [(response.data.events?.event || []).slice(0, 10).map(...)] *)
Definition event_lines (payload : value) : option value :=
  events ← get payload "events";
  first10 ← slice_0_10 (or_else (get_opt events "event") (JArr []));
  array_map event_line first10.

Definition events_body (cityName : string) : M value :=
  resp <- axiosWithRotation (eventsUrl cityName) ;;
  lines <- lift (event_lines (data resp)) ;;
  ret (JObj [("data", lines); ("source", JStr (eventsUrl cityName))]).

Definition events_unavailable : value :=
  JObj [("data", JStr "Events data unavailable"); ("source", JStr "None")].

Definition fetchEventsData (cityName : string) : M value :=
  try_catch (events_body cityName) (λ _, ret events_unavailable).

(** **** Traffic *)

Definition geoCodingUrl (cityName : string) : string :=
  "https://api.openweathermap.org/geo/1.0/direct?q=" +:+ cityName
    +:+ "&limit=1&appid=" +:+ env_str "GEOCODING_API_KEY".

Definition trafficUrl (lat lon : value) : option string :=
  lat_text ← str lat;
  lon_text ← str lon;
  Some ("https://api.tomtom.com/traffic/services/4/flowSegmentData/absolute/10/json?key="
          +:+ env_str "TRAFFIC_API_KEY" +:+ "&point=" +:+ lat_text +:+ "," +:+ lon_text).

(** [trafficData?.flowSegmentData?.currentSpeed ? `Current speed: ...` : ...] *)
Definition traffic_status (trafficData : value) : option value :=
  let currentSpeed := get_opt (get_opt trafficData "flowSegmentData") "currentSpeed" in
  if truthy currentSpeed
  then speed_text ← str currentSpeed;
       Some (JStr ("Current speed: " +:+ speed_text +:+ " km/h"))
  else Some (JStr "Traffic data unavailable").

Definition traffic_body (cityName : string) : M value :=
  geoResponse <- axiosWithRotation (geoCodingUrl cityName) ;;
  location <- lift (first (data geoResponse)) ;;
  if negb (truthy location)
  then throw (Error "Geolocation data unavailable for the city.")
  else
    lat <- lift (get location "lat") ;;
    lon <- lift (get location "lon") ;;
    url <- lift (trafficUrl lat lon) ;;
    trafficResponse <- axiosWithRotation url ;;
    status <- lift (traffic_status (data trafficResponse)) ;;
    ret (JObj [("traffic_status", status); ("source", JStr url)]).

Definition traffic_unavailable : value :=
  JObj [("traffic_status", JStr "Traffic data unavailable"); ("source", JStr "None")].

Definition fetchTrafficData (cityName : string) : M value :=
  try_catch (traffic_body cityName) (λ _, ret traffic_unavailable).

(** **** City information *)

Definition geoNamesUrl (cityName : string) : string :=
  "http://api.geonames.org/searchJSON?q=" +:+ cityName
    +:+ "&maxRows=1&username=" +:+ env_str "GEONAMES_USERNAME".

Definition wikipediaUrl (cityName : string) : string :=
  "https://en.wikipedia.org/api/rest_v1/page/summary/" +:+ cityName.

(** The object built from [response.data.geonames[0]]. *)
Definition geonames_result (cityName : string) (cityData : value) : option value :=
  name ← get cityData "name";
  population ← get cityData "population";
  countryName ← get cityData "countryName";
  lat ← get cityData "lat";
  lng ← get cityData "lng";
  Some (JObj [("name", name);
              ("population", or_else population (JStr "Data unavailable"));
              ("country", countryName);
              ("coordinates", JObj [("lat", lat); ("lon", lng)]);
              ("source", JStr (geoNamesUrl cityName))]).

Definition geonames_body (cityName : string) : M (option value) :=
  resp <- axiosWithRotation (geoNamesUrl cityName) ;;
  geonames <- lift (get (data resp) "geonames") ;;
  len <- lift (get geonames "length") ;;
  found <- lift (gt0 (number_to_string w) (string_gt0 w) len) ;;
  if found : bool
  then
    cityData <- lift (first geonames) ;;
    result <- lift (geonames_result cityName cityData) ;;
    ret (Some result)
  else ret None.

(** The object built from the Wikipedia summary. *)
Definition wikipedia_result (cityName : string) (summary : value) : option value :=
  title ← get summary "title";
  extract ← get summary "extract";
  thumbnail ← get summary "thumbnail";
  Some (JObj [("name", title);
              ("description", or_else extract (JStr "Description unavailable"));
              ("image", or_else (get_opt thumbnail "source") (JStr "No image available"));
              ("source", JStr (wikipediaUrl cityName))]).

Definition wikipedia_body (cityName : string) : M value :=
  wikiResponse <- axiosWithRotation (wikipediaUrl cityName) ;;
  lift (wikipedia_result cityName (data wikiResponse)).

(** The object built from the first geocoding match. *)
Definition geocoding_result (cityName : string) (location : value) : option value :=
  name ← get location "name";
  lat ← get location "lat";
  lon ← get location "lon";
  country ← get location "country";
  Some (JObj [("name", name);
              ("coordinates", JObj [("lat", lat); ("lon", lon)]);
              ("country", country);
              ("source", JStr (geoCodingUrl cityName))]).

Definition geocoding_body (cityName : string) : M (option value) :=
  geoResponse <- axiosWithRotation (geoCodingUrl cityName) ;;
  len <- lift (get (data geoResponse) "length") ;;
  found <- lift (gt0 (number_to_string w) (string_gt0 w) len) ;;
  if found : bool
  then
    location <- lift (first (data geoResponse)) ;;
    result <- lift (geocoding_result cityName location) ;;
    ret (Some result)
  else ret None.

Definition city_unavailable : value :=
  JObj [("error", JStr "City information unavailable"); ("source", JStr "None")].

Definition fetchCityInfo (cityName : string) : M value :=
  r1 <- attempt (geonames_body cityName) ;;
  match r1 with
  | Some result => ret result
  | None =>
      r2 <- attempt (returning (wikipedia_body cityName)) ;;
      match r2 with
      | Some result => ret result
      | None =>
          r3 <- attempt (geocoding_body cityName) ;;
          match r3 with
          | Some result => ret result
          | None => ret city_unavailable
          end
      end
  end.

(** *** Aggregator: [app.get("/api/city/:cityName", ...)] *)

(** An entry of the array [Promise.allSettled] resolves to. *)
Inductive settled : Type :=
| Fulfilled (v : value)
| Rejected (reason : exn).

Definition settle (m : M value) : State → settled * State :=
  λ st, match m st with
        | (Return v, st') => (Fulfilled v, st')
        | (Throw e, st') => (Rejected e, st')
        end.

Record HttpResponse : Type := { status : nat; body : value }.

Definition exn_message (e : exn) : string :=
  match e with
  | Error msg => msg
  | TypeError => "TypeError"
  end.

(** The argument of [res.json] in the [try] block, built from the five
    settled outcomes; [None] is a TypeError raised while building it. *)
Definition composite (cityName : string)
    (cityResponse weatherResponse newsResponse eventsResponse trafficResponse : settled)
    : option value :=
  city_info ← match cityResponse with
              | Fulfilled v => get v "data"
              | Rejected _ => Some (JObj [("error", JStr "City data unavailable")])
              end;
  Some (JObj [("city", JStr cityName);
              ("city_info", city_info);
              ("weather", match weatherResponse with
                          | Fulfilled v => v
                          | Rejected _ => JObj [("data", JStr "Weather data unavailable")]
                          end);
              ("news", match newsResponse with
                       | Fulfilled v => v
                       | Rejected _ => JObj [("data", JStr "News data unavailable")]
                       end);
              ("events", match eventsResponse with
                         | Fulfilled v => v
                         | Rejected _ => JObj [("data", JStr "Events data unavailable")]
                         end);
              ("traffic", match trafficResponse with
                          | Fulfilled v => v
                          | Rejected _ => JObj [("traffic_status", JStr "Traffic data unavailable")]
                          end)]).

Definition respond (cityName : string)
    (cityResponse weatherResponse newsResponse eventsResponse trafficResponse : settled)
    : HttpResponse :=
  match composite cityName cityResponse weatherResponse newsResponse
                  eventsResponse trafficResponse with
  | Some json => {| status := 200; body := json |}
  | None => {| status := 500;
               body := JObj [("error", JStr "Error fetching city data");
                             ("message", JStr (exn_message TypeError))] |}
  end.

(** The handler under the schedule in which the five chains run to
    completion one after the other, in the order of the array handed to
    [Promise.allSettled]. *)
Definition city_handler (cityName : string) : State → HttpResponse * State :=
  λ st0,
    let '(cityResponse, st1) := settle (fetchCityInfo cityName) st0 in
    let '(weatherResponse, st2) := settle (fetchWeatherData cityName) st1 in
    let '(newsResponse, st3) := settle (fetchNewsData cityName) st2 in
    let '(eventsResponse, st4) := settle (fetchEventsData cityName) st3 in
    let '(trafficResponse, st5) := settle (fetchTrafficData cityName) st4 in
    (respond cityName cityResponse weatherResponse newsResponse
             eventsResponse trafficResponse, st5).

(** The outcome of the geocoding sub-fetch gives the traffic chain nothing
    to go on: the fetch failed, [data[0]] raised, or [data[0]] is falsy. *)
Definition no_location (geo : outcome response) : bool :=
  match geo with
  | Throw _ => true
  | Return geoResponse =>
      match first (data geoResponse) with
      | Some location => negb (truthy location)
      | None => true
      end
  end.

(** *** The chains seen as provider lists *)

Inductive category : Type := CityInfo | Weather | News | Events | Traffic.

Definition fetch_category (c : category) (cityName : string) : M value :=
  match c with
  | CityInfo => fetchCityInfo cityName
  | Weather => fetchWeatherData cityName
  | News => fetchNewsData cityName
  | Events => fetchEventsData cityName
  | Traffic => fetchTrafficData cityName
  end.

(** The providers of a chain in declared order, each one the [try]
    statement the source wraps it in. *)
Definition providers (c : category) (cityName : string) : list (M (option value)) :=
  match c with
  | CityInfo => [ attempt (geonames_body cityName);
                  attempt (returning (wikipedia_body cityName));
                  attempt (geocoding_body cityName) ]
  | Weather => map (λ url, attempt (returning (weather_body url))) (weatherUrls cityName)
  | News => map (λ url, attempt (returning (news_body url))) (newsUrls cityName)
  | Events => [ attempt (returning (events_body cityName)) ]
  | Traffic => [ attempt (returning (traffic_body cityName)) ]
  end.

(** What a chain returns once its providers are exhausted. *)
Definition unavailable (c : category) : value :=
  match c with
  | CityInfo => city_unavailable
  | Weather => weather_unavailable
  | News => news_unavailable
  | Events => events_unavailable
  | Traffic => traffic_unavailable
  end.

(** Runs the providers one after the other as long as none yields a
    result; [Some st'] is the state the last of them left, [None] means
    that one of them did yield a result. *)
Fixpoint run_failing (ps : list (M (option value))) (st : State) : option State :=
  match ps with
  | [] => Some st
  | p :: rest =>
      match p st with
      | (Return None, st') => run_failing rest st'
      | _ => None
      end
  end.

(** Walks a provider list and stops at the first result. *)
Fixpoint first_success (ps : list (M (option value))) (fallback : value) : M value :=
  match ps with
  | [] => ret fallback
  | p :: rest =>
      r <- p ;;
      match r with
      | Some result => ret result
      | None => first_success rest fallback
      end
  end.

End Server.

(** ** Subscription plans and the rate limiter mounted on [/api/] *)

Module RateLimit.

Record PlanLimit : Type := { windowMs : Z; max : Z }.

(** The object [rateLimits], its keys in insertion order. *)
Definition rateLimits : list (string * PlanLimit) :=
  [ ("free", {| windowMs := 30 * 60 * 1000; max := 50 |});
    ("basic", {| windowMs := 20 * 60 * 1000; max := 200 |});
    ("pro", {| windowMs := 20 * 60 * 1000; max := 1000 |});
    ("ultra", {| windowMs := 10 * 60 * 1000; max := 5000 |});
    ("ultra_premium", {| windowMs := 5 * 60 * 1000; max := 999999 |}) ].

(** [Object.keys(rateLimits)] *)
Definition validPlans : list string := map fst rateLimits.

(** [validPlans.includes(userPlan)] *)
Definition includes (plans : list string) (userPlan : string) : bool :=
  existsb (String.eqb userPlan) plans.

(** [rateLimits[userPlan]], for a key of the object itself. *)
Fixpoint entry (userPlan : string) (table : list (string * PlanLimit)) : option PlanLimit :=
  match table with
  | [] => None
  | (plan, limit) :: rest =>
      if String.eqb userPlan plan then Some limit else entry userPlan rest
  end.

(** The options object handed to [rateLimit]; [handler] is the response it
    sends once the quota is used up. *)
Record LimiterOptions : Type := {
  opt_windowMs : Z;
  opt_max : Z;
  opt_message : value;
  opt_handler : HttpResponse
}.

(** What the middleware does with a request: answer it itself, or hand it
    to a limiter built from the options. *)
Inductive decision : Type :=
| Refused (res : HttpResponse)
| Limited (options : LimiterOptions).

(** [dynamicRateLimiter], as a function of [req.headers["x-api-plan"]]. *)
Definition dynamicRateLimiter (userPlan : option string) : outcome decision :=
  match userPlan with
  | None =>
      Return (Refused {| status := 400;
                         body := JObj [("error", JStr "Invalid or missing subscription plan. Please specify a valid plan: free, basic, pro, ultra.")] |})
  | Some plan =>
      if String.eqb plan "" || negb (includes validPlans plan)
      then
        Return (Refused {| status := 400;
                           body := JObj [("error", JStr "Invalid or missing subscription plan. Please specify a valid plan: free, basic, pro, ultra.")] |})
      else
        match entry plan rateLimits with
        | None => Throw TypeError
        | Some limit =>
            Return (Limited
              {| opt_windowMs := windowMs limit;
                 opt_max := max limit;
                 opt_message :=
                   JObj [("error", JStr ("Rate limit exceeded for '" +:+ plan
                                           +:+ "' plan. Upgrade your plan to increase your quota."))];
                 opt_handler :=
                   {| status := 429;
                      body := JObj [("error", JStr ("Rate limit exceeded for '" +:+ plan
                                                      +:+ "' plan. Upgrade to a higher plan for more access."))] |} |})
        end
  end.

End RateLimit.

(** A computation that creates at least [n] user agents, however it ends. *)
Definition creates_user_agents {A : Type} (n : nat) (m : M A) : Prop :=
  ∀ st, (user_agents (trace st) + n ≤ user_agents (trace (snd (m st))))%nat.

(** ** Concrete worlds and states *)

Module Examples.

(** The server right after start-up: empty cache, nothing sent yet. *)
Definition fresh : State := {| cache := ∅; now := 1700000000000; trace := [] |}.

(** A world in which answers depend on the URL only. *)
Definition world (node_env : string) (proxies : list Proxy) (probes : bool)
    (answer : string → option value) : World :=
  {| env := λ key, if String.eqb key "NODE_ENV" then Some node_env else Some "k3y";
     proxy_file := proxies;
     random_draw := λ h, length h;
     fresh_user_agent := λ h, "Mozilla/5.0 (X11; Linux x86_64)";
     probe_ok := λ _ _, probes;
     upstream := λ _ url _ _, answer url;
     latency := λ _, 250%N;
     number_to_string := λ q, pretty (Qnum q `div` Z.pos (Qden q));
     string_gt0 := λ _, false |}.

Definition proxy_a : Proxy :=
  {| host := "10.0.0.7"; port := 8080; username := None; password := None |}.

Definition proxy_b : Proxy :=
  {| host := "10.0.0.9"; port := 3128; username := Some "dev"; password := Some "s3cret" |}.

(** Production, every upstream is down. *)
Definition outage : World := world "production" [] false (λ _, None).

(** Production, every upstream answers with an empty body. *)
Definition empty_bodies : World := world "production" [] false (λ _, Some (JStr "")).

(** Production, every upstream answers with the same object. *)
Definition steady : World :=
  world "production" [] false (λ _, Some (JObj [("ok", JBool true)])).

Definition paris_summary : value :=
  JObj [("title", JStr "Paris");
        ("extract", JStr "Paris is the capital and largest city of France.");
        ("thumbnail", JObj [("source", JStr "https://upload.wikimedia.org/paris.jpg")])].

(** Production, GeoNames and every other upstream time out, Wikipedia
    answers. *)
Definition paris : World :=
  world "production" [] false
        (λ url, if String.prefix "https://en.wikipedia.org/" url
                then Some paris_summary else None).

(** Production, the first weather provider is down, the second answers. *)
Definition second_weather : World :=
  world "production" [] false
        (λ url, if String.prefix "https://api.weatherapi.com/" url
                then Some (JObj [("current", JObj [("temp_c", JNum 18%Q)])]) else None).

(** Production, GeoNames knows a city with a population of zero. *)
Definition ghost_town : World :=
  world "production" [] false
        (λ url, if String.prefix "http://api.geonames.org/" url
                then Some (JObj [("geonames",
                                  JArr [JObj [("name", JStr "Pripyat");
                                              ("population", JNum 0%Q);
                                              ("countryName", JStr "Ukraine");
                                              ("lat", JStr "51.40528");
                                              ("lng", JStr "30.05694")]])])
                else None).

(** Development, two proxies on file, no probe gets through. *)
Definition dead_proxies : World :=
  world "development" [proxy_a; proxy_b] false (λ _, Some (JObj [])).

(** Development, two proxies on file, every probe gets through. *)
Definition live_proxies : World :=
  world "development" [proxy_a; proxy_b] true (λ _, Some (JObj [("ok", JBool true)])).

(** Development, [proxyList.json] holds an empty list. *)
Definition no_proxies : World :=
  world "development" [] true (λ _, Some (JObj [])).

Definition some_url : string := "https://example.org/feed.json".

(** A cache holding an unexpired, truthy payload for [some_url]. *)
Definition warm : State :=
  {| cache := {[ some_url := (JObj [("ok", JBool true)], 1700000600000) ]};
     now := 1700000000000;
     trace := [] |}.

(** A cache whose entry for [some_url] expired one millisecond ago. *)
Definition stale : State :=
  {| cache := {[ some_url := (JObj [("ok", JBool true)], 1699999999999) ]};
     now := 1700000000000;
     trace := [] |}.

(** Production, geocoding finds Paris and the flow service reports a
    standstill. *)
Definition standstill : World :=
  world "production" [] false
        (λ url, if String.prefix "https://api.openweathermap.org/geo/" url
                then Some (JArr [JObj [("name", JStr "Paris");
                                       ("lat", JStr "48.85"); ("lon", JStr "2.35");
                                       ("country", JStr "FR")]])
                else if String.prefix "https://api.tomtom.com/" url
                then Some (JObj [("flowSegmentData", JObj [("currentSpeed", JNum 0%Q)])])
                else None).

(** Production, the events service answers without an [event] list. *)
Definition quiet_town : World :=
  world "production" [] false
        (λ url, if String.prefix "https://api.eventful.com/" url
                then Some (JObj [("events", JNull)]) else None).

Definition twelve_articles : list value :=
  map (λ t, JObj [("title", JStr t); ("url", JStr "https://news.example")])
      ["a"; "b"; "c"; "d"; "e"; "f"; "g"; "h"; "i"; "j"; "k"; "l"].

(** Production, the first news provider answers with twelve articles. *)
Definition headlines : World :=
  world "production" [] false
        (λ url, if String.prefix "https://newsapi.org/" url
                then Some (JObj [("articles", JArr twelve_articles)]) else None).

(** Production, GeoNames knows no such place and Wikipedia answers with a
    page that has neither extract nor thumbnail. *)
Definition stub_article : World :=
  world "production" [] false
        (λ url, if String.prefix "http://api.geonames.org/" url
                then Some (JObj [("totalResultsCount", JNum 0%Q); ("geonames", JArr [])])
                else if String.prefix "https://en.wikipedia.org/" url
                then Some (JObj [("title", JStr "Xanadu")])
                else None).

(** A cache holding an unexpired empty body for [some_url]. *)
Definition hollow : State :=
  {| cache := {[ some_url := (JStr "", 1700000600000) ]};
     now := 1700000000000;
     trace := [] |}.

End Examples.

(** * Properties *)

Import Examples.

(** ** The model on small inputs *)

Example to_string_array :
  to_string (number_to_string steady)
            (JArr [JNum 7%Q; JNull; JStr "a"; JArr [JBool true; JUndef]])
  = Some "7,,a,true,".
Proof. reflexivity. Qed.

Example to_string_shadowed :
  to_string (number_to_string steady) (JArr [JObj [("toString", JNum 1%Q)]]) = None.
Proof. reflexivity. Qed.

Example truthy_cases :
  map truthy [JUndef; JNull; JBool false; JNum 0%Q; JStr ""; JStr "0"; JArr []; JObj []]
  = [false; false; false; false; false; true; true; true].
Proof. reflexivity. Qed.

Example news_titles_first_ten :
  news_titles (JObj [("articles", JArr (replicate 25 (JObj [("title", JStr "t")])))])
  = Some (JArr (replicate 10 (JStr "t"))).
Proof. reflexivity. Qed.

Example news_titles_not_an_array :
  news_titles (JObj [("articles", JStr "none today")]) = None.
Proof. reflexivity. Qed.

Example event_lines_missing_events :
  event_lines steady (JObj [("events", JNull)]) = Some (JArr [])
  ∧ event_lines steady
      (JObj [("events", JObj [("event", JArr [JObj [("title", JStr "Jazz");
                                                  ("venue_name", JStr "Le Duc")]])])])
    = Some (JArr [JStr "Jazz at Le Duc"]).
Proof. split; reflexivity. Qed.

Example cached_by_age :
  cached some_url warm = JObj [("ok", JBool true)]
  ∧ cached some_url stale = JUndef
  ∧ cached some_url fresh = JUndef.
Proof. repeat split; vm_compute; reflexivity. Qed.

Example all_chains_down :
  body (fst (city_handler outage "Paris" fresh))
  = JObj [("city", JStr "Paris");
          ("city_info", JUndef);
          ("weather", weather_unavailable);
          ("news", news_unavailable);
          ("events", events_unavailable);
          ("traffic", traffic_unavailable)].
Proof. vm_compute. reflexivity. Qed.

(** ** Counting in traces *)

Lemma upstream_calls_app url (newer older : list event) :
  upstream_calls url (newer ++ older)
  = (upstream_calls url newer + upstream_calls url older)%nat.
Proof. unfold upstream_calls. by rewrite List.filter_app, length_app. Qed.

Lemma probe_attempts_app (newer older : list event) :
  probe_attempts (newer ++ older)
  = (probe_attempts newer + probe_attempts older)%nat.
Proof. unfold probe_attempts. by rewrite List.filter_app, length_app. Qed.

Lemma user_agents_app (newer older : list event) :
  user_agents (newer ++ older)
  = (user_agents newer + user_agents older)%nat.
Proof. unfold user_agents. by rewrite List.filter_app, length_app. Qed.

Lemma only_probes_counts (tr : list event) :
  Forall (λ e, is_probe e = true) tr →
  probe_attempts tr = length tr
  ∧ user_agents tr = 0%nat
  ∧ ∀ url, upstream_calls url tr = 0%nat.
Proof.
  induction 1 as [|e tr He _ (IHp & IHu & IHg)]; [done|].
  destruct e; try discriminate He.
  unfold probe_attempts, user_agents, upstream_calls in *. simpl.
  repeat split; auto.
Qed.

(** ** Proxy selection *)

Section ProxySelection.
Variable w : World.

Lemma validateProxy_run (proxy : Proxy) (st : State) :
  validateProxy w proxy st
  = (Return (probe_ok w (trace st) (proxy_config proxy)),
     record (Probe (proxy_config proxy)) (latency w (trace st)) st).
Proof.
  unfold validateProxy, try_catch, bind, axios_probe, ret.
  by destruct (probe_ok w (trace st) (proxy_config proxy)).
Qed.

(** The retry loop touches neither the cache nor anything but probes. *)
Lemma getValidProxy_loop_effects (budget : nat) (st : State) o st' :
  getValidProxy_loop w budget st = (o, st') →
  cache st' = cache st ∧ now st ≤ now st'
  ∧ ∃ newer, trace st' = newer ++ trace st
             ∧ Forall (λ e, is_probe e = true) newer
             ∧ (length newer ≤ budget)%nat.
Proof.
  revert st. induction budget as [|budget IH]; intros st Hrun; simpl in Hrun.
  - inversion Hrun; subst. repeat split; [lia|]. exists []. by repeat split.
  - destruct (proxyList w) as [|p0 ps] eqn:Hlist.
    + inversion Hrun; subst. repeat split; [lia|]. exists []. repeat split; [done|simpl; lia].
    + destruct ((p0 :: ps) !! _) as [proxy|] eqn:Hpick.
      * unfold bind in Hrun. rewrite validateProxy_run in Hrun.
        destruct (probe_ok w (trace st) (proxy_config proxy)).
        -- inversion Hrun; subst. simpl. repeat split; [lia|].
           exists [Probe (proxy_config proxy)]. repeat split; [|simpl; lia].
           by constructor.
        -- apply IH in Hrun as (Hc & Hn & newer & Ht & Hp & Hl).
           simpl in *. repeat split; [done|lia|].
           exists (newer ++ [Probe (proxy_config proxy)]). repeat split.
           ++ by rewrite Ht, <- app_assoc.
           ++ apply Forall_app. split; [done|]. by constructor.
           ++ rewrite length_app. simpl. lia.
      * apply IH in Hrun as (Hc & Hn & newer & Ht & Hp & Hl).
        repeat split; [done..|]. exists newer. repeat split; [done..|lia].
Qed.

(** With every probe failing the loop spends its whole budget. *)
Lemma getValidProxy_loop_exhausts (budget : nat) (st : State) :
  proxyList w ≠ [] →
  (∀ h cfg, probe_ok w h cfg = false) →
  ∃ st', getValidProxy_loop w budget st
         = (Throw (Error "No valid proxies available after maximum retries."), st')
         ∧ probe_attempts (trace st') = (probe_attempts (trace st) + budget)%nat.
Proof.
  intros Hne Hfail. revert st.
  induction budget as [|budget IH]; intros st; simpl.
  - exists st. split; [done|lia].
  - destruct (proxyList w) as [|p0 ps] eqn:Hlist; [done|].
    destruct (lookup_lt_is_Some_2 (p0 :: ps)
                (random_draw w (trace st) `mod` length (p0 :: ps))%nat)
      as [proxy Hpick].
    { apply Nat.mod_upper_bound. simpl. lia. }
    rewrite Hpick. unfold bind. rewrite validateProxy_run, Hfail.
    destruct (IH (record (Probe (proxy_config proxy)) (latency w (trace st)) st))
      as (st' & Hrun & Hcount).
    exists st'. split; [done|]. rewrite Hcount.
    unfold probe_attempts. simpl. lia.
Qed.

End ProxySelection.

(** C6.  Outside production, with a non-empty proxy list and every probe
    failing, [getValidProxy(maxRetries)] throws "No valid proxies available
    after maximum retries." after at most [maxRetries] probes (in fact
    exactly that many). *)
Theorem getValidProxy_exhausts_retries (w : World) (maxRetries : nat) (st : State) :
  production w = false →
  proxyList w ≠ [] →
  (∀ h cfg, probe_ok w h cfg = false) →
  ∃ st', getValidProxy w maxRetries st
         = (Throw (Error "No valid proxies available after maximum retries."), st')
         ∧ (probe_attempts (trace st') - probe_attempts (trace st) ≤ maxRetries)%nat
         ∧ probe_attempts (trace st') = (probe_attempts (trace st) + maxRetries)%nat.
Proof.
  intros Hdev Hne Hfail. unfold getValidProxy. rewrite Hdev.
  destruct (getValidProxy_loop_exhausts w maxRetries st Hne Hfail) as (st' & Hrun & Hcount).
  exists st'. repeat split; [done|lia|done].
Qed.

Lemma getValidProxy_exhausts_retries_witness :
  ∃ st', getValidProxy dead_proxies 3 fresh
         = (Throw (Error "No valid proxies available after maximum retries."), st')
         ∧ probe_attempts (trace st') = 3%nat.
Proof.
  destruct (getValidProxy_exhausts_retries dead_proxies 3 fresh)
    as (st' & Hrun & _ & Hcount).
  - reflexivity.
  - vm_compute. discriminate.
  - reflexivity.
  - exists st'. split; [exact Hrun | exact Hcount].
Defined.

(** C7.  In production every call of [getValidProxy] throws "Proxy rotation
    is not enabled in production." at once: the state, and with it the
    trace of probes, is left as it was, whatever the proxy list and the
    retry budget. *)
Theorem getValidProxy_production (w : World) (maxRetries : nat) (st : State) :
  production w = true →
  getValidProxy w maxRetries st
  = (Throw (Error "Proxy rotation is not enabled in production."), st).
Proof. intros Hprod. unfold getValidProxy. by rewrite Hprod. Qed.

Lemma getValidProxy_production_witness :
  getValidProxy outage 5 fresh
  = (Throw (Error "Proxy rotation is not enabled in production."), fresh).
Proof. apply (getValidProxy_production outage 5 fresh). reflexivity. Defined.

(** C8, as the code has it.  Outside production with an empty proxy list
    [getValidProxy] throws at once and without a probe, and the exception
    is the one of exhausted retries, "No valid proxies available after
    maximum retries.": the loop is skipped and the [throw] after it is
    reached. *)
Theorem getValidProxy_empty_list (w : World) (maxRetries : nat) (st : State) :
  production w = false →
  proxyList w = [] →
  getValidProxy w maxRetries st
  = (Throw (Error "No valid proxies available after maximum retries."), st).
Proof.
  intros Hdev Hempty. unfold getValidProxy. rewrite Hdev.
  destruct maxRetries; simpl; [done|]. by rewrite Hempty.
Qed.

Lemma getValidProxy_empty_list_witness :
  getValidProxy no_proxies 5 fresh
  = (Throw (Error "No valid proxies available after maximum retries."), fresh).
Proof. apply (getValidProxy_empty_list no_proxies 5 fresh); reflexivity. Defined.

(** C8 as stated fails: with an empty list the exception is not a separate
    "no proxies available" error but the very exception thrown after five
    failed probes. *)
Lemma getValidProxy_empty_list_no_own_error :
  fst (getValidProxy no_proxies 5 fresh)
  = Throw (Error "No valid proxies available after maximum retries.")
  ∧ fst (getValidProxy no_proxies 5 fresh) = fst (getValidProxy dead_proxies 5 fresh)
  ∧ ¬ (∃ st', getValidProxy no_proxies 5 fresh
              = (Throw (Error "No proxies available."), st')).
Proof.
  repeat split; [reflexivity..|].
  intros [st' Hrun]. vm_compute in Hrun. discriminate Hrun.
Qed.

(** ** The cached fetcher *)

Section Fetcher.
Variable w : World.

Lemma cached_with_user_agent (url : string) (st : State) :
  cached url (with_user_agent w st) = cached url st.
Proof. reflexivity. Qed.

Lemma egress_open_production (st : State) :
  production w = true → egress_open w st = true.
Proof. intros Hprod. unfold egress_open. by rewrite Hprod. Qed.

(** Every call of the fetcher goes one of the four ways of [fetch_run]. *)
Lemma axiosWithRotation_run (url : string) (st : State) o st' :
  axiosWithRotation w url st = (o, st') → fetch_run w url st o st'.
Proof.
  unfold axiosWithRotation, bind at 1 2, new_UserAgent, cache_get.
  fold (with_user_agent w st). rewrite cached_with_user_agent.
  destruct (truthy (cached url st)) eqn:Hcached.
  { intros [= <- <-]. by constructor. }
  destruct (production w) eqn:Hprod.
  - unfold try_catch, bind, axios_get, cache_set, ret, throw.
    destruct (upstream w (trace (with_user_agent w st)) url
                (fresh_user_agent w (trace st)) None) as [payload|] eqn:Hup;
      intros [= <- <-].
    + apply (fetch_answered w url st (with_user_agent w st) []);
        auto using egress_open_production; simpl; lia.
    + apply (fetch_failed w url st _ (with_user_agent w st) []);
        auto using egress_open_production; simpl; lia.
  - unfold try_catch, bind at 1.
    destruct (getValidProxy w 5 (with_user_agent w st)) as [[proxy|e] before] eqn:Hproxy.
    + assert (Hopen : egress_open w st = true).
      { unfold egress_open. rewrite Hproxy. simpl. apply orb_true_r. }
      unfold getValidProxy in Hproxy. rewrite Hprod in Hproxy.
      apply getValidProxy_loop_effects in Hproxy
        as (Hcache & Hnow & probes & Htrace & Hprobes & _).
      simpl in Hnow.
      unfold bind, axios_get, cache_set, ret, throw.
      destruct (upstream w (trace before) url (fresh_user_agent w (trace st))
                  (Some (proxy_config proxy))) as [payload|] eqn:Hup;
        intros [= <- <-].
      * by apply (fetch_answered w url st before probes).
      * by apply (fetch_failed w url st _ before probes).
    + assert (Hshut : egress_open w st = false).
      { unfold egress_open. by rewrite Hproxy, Hprod. }
      unfold getValidProxy in Hproxy. rewrite Hprod in Hproxy.
      apply getValidProxy_loop_effects in Hproxy
        as (Hcache & Hnow & probes & Htrace & Hprobes & _).
      simpl in Hnow. unfold throw. intros [= <- <-].
      by apply (fetch_blocked w url st _ before probes).
Qed.

(** A served request leaves the payload in the cache, unexpired. *)
Lemma fetch_hit_run (url : string) (st : State) :
  truthy (cached url st) = true →
  axiosWithRotation w url st
  = (Return {| data := cached url st |}, with_user_agent w st).
Proof.
  intros Hcached. unfold axiosWithRotation, bind, new_UserAgent, cache_get.
  fold (with_user_agent w st). rewrite cached_with_user_agent. by rewrite Hcached.
Qed.

Lemma upstream_calls_get_same (url ua : string) cfg (tr : list event) :
  upstream_calls url (Get url ua cfg :: tr) = S (upstream_calls url tr).
Proof. unfold upstream_calls. simpl. by rewrite String.eqb_refl. Qed.

Lemma upstream_calls_get_other (u url ua : string) cfg (tr : list event) :
  u ≠ url → upstream_calls u (Get url ua cfg :: tr) = upstream_calls u tr.
Proof.
  intros Hne. unfold upstream_calls. simpl.
  destruct (String.eqb_spec url u) as [->|_]; [done|reflexivity].
Qed.

(** Counts in the state in which [axios.get(url, ...)] is issued. *)
Lemma before_counts (st before : State) (probes : list event) :
  trace before = probes ++ trace (with_user_agent w st) →
  Forall (λ e, is_probe e = true) probes →
  user_agents (trace before) = S (user_agents (trace st))
  ∧ ∀ u, upstream_calls u (trace before) = upstream_calls u (trace st).
Proof.
  intros -> Hprobes. apply only_probes_counts in Hprobes as (_ & Hua & Hget).
  split; [|intros u];
    [rewrite user_agents_app, Hua | rewrite upstream_calls_app, Hget]; done.
Qed.

(** What one call of the fetcher adds to the trace: one user agent, no
    upstream call for another URL, at most one for its own. *)
Lemma fetch_run_counts (url : string) (st : State) o st' :
  fetch_run w url st o st' →
  user_agents (trace st') = S (user_agents (trace st))
  ∧ (∀ u, u ≠ url → upstream_calls u (trace st') = upstream_calls u (trace st))
  ∧ (upstream_calls url (trace st) ≤ upstream_calls url (trace st')
     ≤ S (upstream_calls url (trace st)))%nat
  ∧ now st ≤ now st'.
Proof.
  destruct 1 as [Hc | e before probes Hc Ho Hcache Hnow Htr Hp
                 | before probes ua cfg payload Hc Ho Hcache Hnow Htr Hp Hup
                 | e before probes ua cfg Hc Ho Hcache Hnow Htr Hp Hup].
  - simpl. repeat split; auto; lia.
  - destruct (before_counts st before probes Htr Hp) as [Hua Hget].
    rewrite Hua. repeat split; auto; rewrite Hget; lia.
  - destruct (before_counts st before probes Htr Hp) as [Hua Hget].
    cbn [trace now]. rewrite upstream_calls_get_same, Hget.
    repeat split; [done| |lia..].
    intros u Hne. by rewrite upstream_calls_get_other, Hget.
  - destruct (before_counts st before probes Htr Hp) as [Hua Hget].
    cbn [trace now record emit advance]. rewrite upstream_calls_get_same, Hget.
    repeat split; [done| |lia..].
    intros u Hne. by rewrite upstream_calls_get_other, Hget.
Qed.

(** A miss with the egress open costs exactly one upstream call. *)
Lemma fetch_run_miss (url : string) (st : State) o st' :
  fetch_run w url st o st' →
  truthy (cached url st) = false →
  egress_open w st = true →
  upstream_calls url (trace st') = S (upstream_calls url (trace st)).
Proof.
  destruct 1 as [Hc | e before probes Hc Ho Hcache Hnow Htr Hp
                 | before probes ua cfg payload Hc Ho Hcache Hnow Htr Hp Hup
                 | e before probes ua cfg Hc Ho Hcache Hnow Htr Hp Hup];
    intros Hmiss Hopen; try congruence;
    destruct (before_counts st before probes Htr Hp) as [_ Hget];
    cbn [trace record emit advance]; by rewrite upstream_calls_get_same, Hget.
Qed.

(** A truthy payload handed back is in the cache and unexpired; when it was
    fetched upstream it expires [stdTTL] seconds after the answer. *)
Lemma fetch_run_cached (url : string) (st : State) r st' :
  fetch_run w url st (Return r) st' →
  truthy (data r) = true →
  ∃ expires, cache st' !! url = Some (data r, expires)
             ∧ now st' ≤ expires
             ∧ (upstream_calls url (trace st') = S (upstream_calls url (trace st)) →
                expires = now st' + stdTTL * 1000).
Proof.
  intros Hrun. inversion Hrun as [Hc | | before probes ua cfg payload Hc Ho Hcache Hnow Htr Hp Hup | ];
    subst; intros Htruthy.
  - simpl in *. unfold cached, unexpired in *.
    destruct (cache st !! url) as [[v expires]|]; [|done].
    destruct (expires <? now st) eqn:Hexp; [done|]. simpl in *.
    exists expires. split; [done|]. split; [lia|].
    unfold upstream_calls. simpl. lia.
  - simpl. eexists. rewrite lookup_insert_eq. split; [done|].
    split; [unfold stdTTL; lia|done].
Qed.

Lemma unexpired_advance (url : string) (st : State) (d : N) (v : value) (expires : Z) :
  cache st !! url = Some (v, expires) →
  unexpired url (advance d st) = negb (expires <? now st + Z.of_N d).
Proof. intros Hentry. unfold unexpired. simpl. by rewrite Hentry. Qed.

End Fetcher.

(** C5, as the code has it.  When [axiosWithRotation(url)] finds an
    unexpired cache entry holding a truthy payload it returns that payload
    without selecting a proxy, probing or calling upstream, and leaves
    cache and clock alone; the only effect is the user agent created by
    the first statement of the function, before the cache is read. *)
Theorem fetch_cache_hit (w : World) (url : string) (st : State)
    (v : value) (expires : Z) :
  cache st !! url = Some (v, expires) →
  now st ≤ expires →
  truthy v = true →
  ∃ st', axiosWithRotation w url st = (Return {| data := v |}, st')
         ∧ cache st' = cache st
         ∧ now st' = now st
         ∧ trace st' = UserAgentCreated (fresh_user_agent w (trace st)) :: trace st
         ∧ probe_attempts (trace st') = probe_attempts (trace st)
         ∧ ∀ u, upstream_calls u (trace st') = upstream_calls u (trace st).
Proof.
  intros Hentry Hfresh Htruthy.
  assert (Hcached : cached url st = v).
  { unfold cached, unexpired. rewrite Hentry.
    by destruct (Z.ltb_spec expires (now st)); [lia|]. }
  exists (with_user_agent w st). split.
  - rewrite <- Hcached. apply fetch_hit_run. by rewrite Hcached.
  - by repeat split.
Qed.

Lemma fetch_cache_hit_witness :
  ∃ st', axiosWithRotation live_proxies some_url warm
         = (Return {| data := JObj [("ok", JBool true)] |}, st')
         ∧ probe_attempts (trace st') = 0%nat
         ∧ upstream_calls some_url (trace st') = 0%nat.
Proof.
  destruct (fetch_cache_hit live_proxies some_url warm
              (JObj [("ok", JBool true)]) 1700000600000)
    as (st' & Hrun & _ & _ & _ & Hprobes & Hget).
  - reflexivity.
  - simpl. lia.
  - reflexivity.
  - exists st'. split; [exact Hrun|]. split; [exact Hprobes | exact (Hget some_url)].
Defined.

(** C5 as stated fails: on a cache hit a user agent has been generated all
    the same. *)
Lemma fetch_cache_hit_generates_user_agent :
  unexpired some_url warm = true
  ∧ fst (axiosWithRotation steady some_url warm)
    = Return {| data := JObj [("ok", JBool true)] |}
  ∧ trace (snd (axiosWithRotation steady some_url warm))
    = [UserAgentCreated "Mozilla/5.0 (X11; Linux x86_64)"]
  ∧ user_agents (trace (snd (axiosWithRotation steady some_url warm))) = 1%nat.
Proof. repeat split; vm_compute; reflexivity. Qed.

(** C4, as the code has it.  After a fetch of [url] that returned a truthy
    payload, a second fetch [d] milliseconds later is served from the
    cache, without a further upstream call, as long as the entry is
    unexpired, so that both fetches together call upstream at most once;
    once the entry has expired the second fetch calls upstream again,
    provided it gets as far as its request (always in production,
    otherwise when a proxy is found).  An entry written by the first fetch
    stays unexpired for [stdTTL] seconds. *)
Theorem fetch_again (w : World) (url : string) (st : State)
    (r : response) (st1 : State) (d : N) :
  axiosWithRotation w url st = (Return r, st1) →
  truthy (data r) = true →
  let later := advance d st1 in
  let st2 := snd (axiosWithRotation w url later) in
  (unexpired url later = true →
     axiosWithRotation w url later = (Return r, with_user_agent w later)
     ∧ upstream_calls url (trace st2) = upstream_calls url (trace st1)
     ∧ (upstream_calls url (trace st2) ≤ S (upstream_calls url (trace st)))%nat)
  ∧ (unexpired url later = false →
     egress_open w later = true →
     upstream_calls url (trace st2) = S (upstream_calls url (trace st1)))
  ∧ (upstream_calls url (trace st1) = S (upstream_calls url (trace st)) →
     (unexpired url later = true ↔ Z.of_N d ≤ stdTTL * 1000)).
Proof.
  intros Hfirst Htruthy later st2.
  apply axiosWithRotation_run in Hfirst.
  destruct (fetch_run_cached w url st r st1 Hfirst Htruthy)
    as (expires & Hentry & Hvalid & Hwritten).
  destruct (fetch_run_counts w url st _ st1 Hfirst) as (_ & _ & Hcalls & _).
  assert (Hlater : unexpired url later = negb (expires <? now st1 + Z.of_N d))
    by (by apply unexpired_advance with (v := data r)).
  assert (Hcached : cached url later = if unexpired url later then data r else JUndef).
  { unfold cached. subst later. simpl. by rewrite Hentry. }
  split; [|split].
  - intros Hin. rewrite Hin in Hcached.
    assert (Hhit : axiosWithRotation w url later = (Return r, with_user_agent w later)).
    { rewrite fetch_hit_run by (by rewrite Hcached). rewrite Hcached. by destruct r. }
    split; [done|]. subst st2. rewrite Hhit. simpl.
    unfold upstream_calls in *. simpl. lia.
  - intros Hout Hopen. rewrite Hout in Hcached.
    apply (fetch_run_miss w url later (fst (axiosWithRotation w url later))); [|by rewrite Hcached|done].
    apply axiosWithRotation_run. by destruct (axiosWithRotation w url later).
  - intros Hupstream. rewrite Hlater, (Hwritten Hupstream).
    destruct (Z.ltb_spec (now st1 + stdTTL * 1000) (now st1 + Z.of_N d)); simpl;
      split; intros; try done; lia.
Qed.

Lemma fetch_again_witness :
  let st1 := snd (axiosWithRotation steady some_url fresh) in
  upstream_calls some_url
    (trace (snd (axiosWithRotation steady some_url (advance 1000%N st1)))) = 1%nat
  ∧ upstream_calls some_url
      (trace (snd (axiosWithRotation steady some_url (advance 3600001%N st1)))) = 2%nat.
Proof.
  intros st1. split.
  - destruct (fetch_again steady some_url fresh
                {| data := JObj [("ok", JBool true)] |} st1 1000%N)
      as ((_ & Hsame & _) & _ & _).
    + vm_compute. reflexivity.
    + reflexivity.
    + vm_compute. reflexivity.
    + rewrite Hsame. vm_compute. reflexivity.
  - destruct (fetch_again steady some_url fresh
                {| data := JObj [("ok", JBool true)] |} st1 3600001%N)
      as (_ & Hexpired & _).
    + vm_compute. reflexivity.
    + reflexivity.
    + rewrite Hexpired; vm_compute; reflexivity.
Defined.

(** C4 as stated fails: a failed fetch is not cached, so two fetches of one
    URL a second apart both call upstream; the same happens when the
    first fetch succeeds with an empty body. *)
Lemma fetch_twice_calls_upstream_twice :
  (let st1 := snd (axiosWithRotation outage some_url fresh) in
   let st2 := snd (axiosWithRotation outage some_url (advance 1000%N st1)) in
   upstream_calls some_url (trace st2) = 2%nat
   ∧ now st2 - now fresh < stdTTL * 1000)
  ∧ (let st1 := snd (axiosWithRotation empty_bodies some_url fresh) in
     let st2 := snd (axiosWithRotation empty_bodies some_url (advance 1000%N st1)) in
     fst (axiosWithRotation empty_bodies some_url fresh) = Return {| data := JStr "" |}
     ∧ unexpired some_url (advance 1000%N st1) = true
     ∧ upstream_calls some_url (trace st2) = 2%nat).
Proof. repeat split; vm_compute; reflexivity. Qed.

(** ** The fallback chains *)

Section Chains.
Variable w : World.

Lemma first_success_exhausted (ps : list (M (option value))) (fallback : value)
    (st st' : State) :
  run_failing ps st = Some st' →
  first_success ps fallback st = (Return fallback, st').
Proof.
  revert st. induction ps as [|p ps IH]; intros st; simpl.
  - by intros [= ->].
  - unfold bind. destruct (p st) as [[[r|]|e] st1]; try done. apply IH.
Qed.

Lemma first_success_stops (pre post : list (M (option value))) (p : M (option value))
    (fallback r : value) (st st1 st2 : State) :
  run_failing pre st = Some st1 →
  p st1 = (Return (Some r), st2) →
  first_success (pre ++ p :: post) fallback st = (Return r, st2).
Proof.
  revert st. induction pre as [|q pre IH]; intros st; simpl.
  - intros [= ->] Hp. unfold bind. by rewrite Hp.
  - unfold bind. destruct (q st) as [[[r'|]|e] st']; try done. apply IH.
Qed.

Lemma fetchWeatherData_loop_first_success (urls : list string) (st : State) :
  fetchWeatherData_loop w urls st
  = first_success (map (λ url, attempt (returning (weather_body w url))) urls)
                  weather_unavailable st.
Proof.
  revert st. induction urls as [|url urls IH]; intros st; simpl; [done|].
  unfold bind. by destruct (attempt _ st) as [[[r|]|e] st'].
Qed.

Lemma fetchNewsData_loop_first_success (urls : list string) (st : State) :
  fetchNewsData_loop w urls st
  = first_success (map (λ url, attempt (returning (news_body w url))) urls)
                  news_unavailable st.
Proof.
  revert st. induction urls as [|url urls IH]; intros st; simpl; [done|].
  unfold bind. by destruct (attempt _ st) as [[[r|]|e] st'].
Qed.

Lemma try_catch_first_success (body : M value) (fallback : value) (st : State) :
  try_catch body (λ _, ret fallback) st
  = first_success [attempt (returning body)] fallback st.
Proof.
  simpl. unfold attempt, returning, try_catch, bind, ret.
  by destruct (body st) as [[r|e] st'].
Qed.

(** Every chain walks its provider list and stops at the first result. *)
Lemma fetch_category_first_success (c : category) (cityName : string) (st : State) :
  fetch_category w c cityName st
  = first_success (providers w c cityName) (unavailable c) st.
Proof.
  destruct c; simpl.
  - reflexivity.
  - apply fetchWeatherData_loop_first_success.
  - apply fetchNewsData_loop_first_success.
  - apply try_catch_first_success.
  - apply try_catch_first_success.
Qed.

(** *** Every provider that runs leaves a user agent in the trace *)

Lemma creates_ret {A : Type} (a : A) : creates_user_agents 0 (ret a).
Proof. intros st. simpl. lia. Qed.

Lemma creates_throw {A : Type} (e : exn) : creates_user_agents 0 (@throw A e).
Proof. intros st. simpl. lia. Qed.

Lemma creates_lift {A : Type} (o : option A) : creates_user_agents 0 (lift o).
Proof. destruct o; [apply creates_ret | apply creates_throw]. Qed.

Lemma creates_less {A : Type} (n k : nat) (m : M A) :
  (k ≤ n)%nat → creates_user_agents n m → creates_user_agents k m.
Proof. intros Hle Hm st. specialize (Hm st). lia. Qed.

Lemma creates_bind {A B : Type} (n : nat) (m : M A) (k : A → M B) :
  creates_user_agents n m →
  (∀ a, creates_user_agents 0 (k a)) →
  creates_user_agents n (bind m k).
Proof.
  intros Hm Hk st. specialize (Hm st). unfold bind.
  destruct (m st) as [[a|e] st']; simpl in *; [|done].
  specialize (Hk a st'). lia.
Qed.

Lemma creates_try_catch {A : Type} (n : nat) (m : M A) (h : exn → M A) :
  creates_user_agents n m →
  (∀ e, creates_user_agents 0 (h e)) →
  creates_user_agents n (try_catch m h).
Proof.
  intros Hm Hh st. specialize (Hm st). unfold try_catch.
  destruct (m st) as [[a|e] st']; simpl in *; [done|].
  specialize (Hh e st'). lia.
Qed.

Lemma creates_axiosWithRotation (url : string) :
  creates_user_agents 1 (axiosWithRotation w url).
Proof.
  intros st. destruct (axiosWithRotation w url st) as [o st'] eqn:Hrun.
  apply axiosWithRotation_run, fetch_run_counts in Hrun as (Hua & _). simpl. lia.
Qed.

Lemma creates_attempt (n : nat) (body : M (option value)) :
  creates_user_agents n body → creates_user_agents n (attempt body).
Proof. intros Hbody. apply creates_try_catch; [done|]. intros _. apply creates_ret. Qed.

Lemma creates_returning (n : nat) (body : M value) :
  creates_user_agents n body → creates_user_agents n (returning body).
Proof. intros Hbody. apply creates_bind; [done|]. intros r. apply creates_ret. Qed.

Ltac creates_step :=
  first [ apply creates_ret | apply creates_throw | apply creates_lift
        | apply creates_axiosWithRotation
        | apply (creates_less 1 0); [lia | apply creates_axiosWithRotation]
        | apply creates_attempt | apply creates_returning
        | apply creates_bind; [|intros ?]
        | match goal with
          | |- creates_user_agents _ (if ?b then _ else _) => destruct b
          end ].

Lemma providers_create_user_agent (c : category) (cityName : string)
    (p : M (option value)) :
  p ∈ providers w c cityName → creates_user_agents 1 p.
Proof.
  destruct c; simpl; rewrite ?elem_of_cons, ?elem_of_nil;
    intros H; repeat destruct H as [H|H]; try done; subst p;
    unfold geonames_body, wikipedia_body, geocoding_body, weather_body,
           news_body, events_body, traffic_body;
    repeat creates_step.
Qed.

(** No chain throws to its caller. *)
Lemma fetch_category_returns (c : category) (cityName : string) (st : State) :
  ∃ result st', fetch_category w c cityName st = (Return result, st').
Proof.
  rewrite fetch_category_first_success.
  assert (Hsafe : Forall (λ p, ∀ s, ∃ r s', p s = (Return r, s'))
                         (providers w c cityName)).
  { assert (Hattempt : ∀ body s, ∃ r s', attempt body s = (Return r, s')).
    { intros body s. unfold attempt, try_catch, ret.
      destruct (body s) as [[r|e] s']; eauto. }
    destruct c; simpl; repeat constructor; auto. }
  revert st. induction Hsafe as [|p ps Hp _ IH]; intros st; simpl.
  - eauto.
  - unfold bind. destruct (Hp st) as ([r|] & s' & ->); eauto.
Qed.

End Chains.

(** C2.  For every category and city name: when every provider of the
    chain fails (its fetch throws, its payload does not have the expected
    shape, or it has nothing to return), the chain returns, and what it
    returns is the category's "unavailable" object, whose [source] is the
    string "None".  The sentinel text sits in the field [data] for
    weather, news and events, in [traffic_status] for traffic and in
    [error] for city information. *)
Theorem chain_exhausted (w : World) (c : category) (cityName : string)
    (st st' : State) :
  run_failing (providers w c cityName) st = Some st' →
  fetch_category w c cityName st = (Return (unavailable c), st')
  ∧ get (unavailable c) "source" = Some (JStr "None")
  ∧ unavailable c
    = match c with
      | CityInfo => JObj [("error", JStr "City information unavailable");
                          ("source", JStr "None")]
      | Weather => JObj [("data", JStr "Weather data unavailable");
                         ("source", JStr "None")]
      | News => JObj [("data", JStr "News data unavailable");
                      ("source", JStr "None")]
      | Events => JObj [("data", JStr "Events data unavailable");
                        ("source", JStr "None")]
      | Traffic => JObj [("traffic_status", JStr "Traffic data unavailable");
                         ("source", JStr "None")]
      end.
Proof.
  intros Hfail. split; [|by destruct c].
  rewrite fetch_category_first_success. by apply first_success_exhausted.
Qed.

Lemma chain_exhausted_witness :
  ∃ st', fetch_category outage News "Paris" fresh
         = (Return (JObj [("data", JStr "News data unavailable");
                          ("source", JStr "None")]), st').
Proof.
  eexists.
  refine (proj1 (chain_exhausted outage News "Paris" fresh _ _)).
  vm_compute. reflexivity.
Defined.

(** C3.  In every chain the providers run in declared order, and the first
    one that returns a result ends the chain: if the providers [pre] have
    all failed and the next provider [p] returns [r], the chain returns [r]
    in the very state [p] left.  No provider after [p] has run, for each of
    them would have left one more user agent in the trace. *)
Theorem chain_first_success (w : World) (c : category) (cityName : string)
    (pre post : list (M (option value))) (p : M (option value))
    (st st1 st2 : State) (r : value) :
  providers w c cityName = pre ++ p :: post →
  run_failing pre st = Some st1 →
  p st1 = (Return (Some r), st2) →
  fetch_category w c cityName st = (Return r, st2)
  ∧ ∀ q, q ∈ post →
         (user_agents (trace st2) < user_agents (trace (snd (q st2))))%nat.
Proof.
  intros Hlist Hpre Hp. split.
  - rewrite fetch_category_first_success, Hlist.
    by apply first_success_stops with (st1 := st1).
  - intros q Hq.
    assert (Hin : q ∈ providers w c cityName).
    { rewrite Hlist. apply elem_of_app. right. by apply elem_of_cons; right. }
    pose proof (providers_create_user_agent w c cityName q Hin st2). lia.
Qed.

Lemma chain_first_success_witness :
  ∃ st2, fetch_category second_weather Weather "Paris" fresh
         = (Return (JObj [("data", JObj [("current", JObj [("temp_c", JNum 18%Q)])]);
                          ("source",
                           JStr "https://api.weatherapi.com/v1/forecast.json?key=k3y&q=Paris&days=7")]),
            st2).
Proof.
  eexists.
  refine (proj1 (chain_first_success second_weather Weather "Paris"
    [attempt (returning (weather_body second_weather
       "https://api.openweathermap.org/data/2.5/forecast?q=Paris&units=metric&appid=k3y"))]
    []
    (attempt (returning (weather_body second_weather
       "https://api.weatherapi.com/v1/forecast.json?key=k3y&q=Paris&days=7")))
    fresh _ _ _ _ _ _)).
  - reflexivity.
  - vm_compute. reflexivity.
  - vm_compute. reflexivity.
Defined.

(** ** Traffic *)

Lemma trafficUrl_not_geoCodingUrl (w : World) (lat lon : value)
    (url cityName : string) :
  trafficUrl w lat lon = Some url → url ≠ geoCodingUrl w cityName.
Proof.
  unfold trafficUrl, geoCodingUrl.
  destruct (str w lat); [|done]. destruct (str w lon); [|done].
  simpl. intros [= <-]. discriminate.
Qed.

(** C9.  When the geocoding sub-fetch of the traffic chain fails or yields
    no location, the chain returns the "unavailable" object with [source]
    "None" in the state the geocoding fetch left: that fetch is the only
    one invoked, and no flow-data URL has been requested. *)
Theorem traffic_without_location (w : World) (cityName : string) (st : State) :
  let geo := axiosWithRotation w (geoCodingUrl w cityName) st in
  no_location (fst geo) = true →
  fetchTrafficData w cityName st = (Return traffic_unavailable, snd geo)
  ∧ traffic_unavailable
    = JObj [("traffic_status", JStr "Traffic data unavailable"); ("source", JStr "None")]
  ∧ user_agents (trace (snd geo)) = S (user_agents (trace st))
  ∧ ∀ lat lon url,
      trafficUrl w lat lon = Some url →
      upstream_calls url (trace (snd geo)) = upstream_calls url (trace st).
Proof.
  intros geo Hnone. subst geo.
  destruct (axiosWithRotation w (geoCodingUrl w cityName) st) as [o st1] eqn:Hgeo.
  simpl in *. split; [|split; [done|]].
  - unfold fetchTrafficData, try_catch, traffic_body, bind. rewrite Hgeo.
    destruct o as [geoResponse|e]; [|done]. simpl in Hnone.
    destruct (first (data geoResponse)) as [location|]; simpl; [|done].
    by rewrite Hnone.
  - apply axiosWithRotation_run, fetch_run_counts in Hgeo as (Hua & Hother & _).
    split; [done|]. intros lat lon url Hurl.
    by eapply Hother, trafficUrl_not_geoCodingUrl.
Qed.

Lemma traffic_without_location_witness :
  fetchTrafficData outage "Paris" fresh
  = (Return (JObj [("traffic_status", JStr "Traffic data unavailable");
                   ("source", JStr "None")]),
     snd (axiosWithRotation outage (geoCodingUrl outage "Paris") fresh)).
Proof.
  refine (proj1 (traffic_without_location outage "Paris" fresh _)).
  vm_compute. reflexivity.
Defined.

(** ** City information *)

Lemma truthy_zero (q : Q) : (q == 0)%Q → truthy (JNum q) = false.
Proof.
  unfold Qeq. simpl. intros Hq.
  assert (Hnum : Qnum q = 0) by lia. by rewrite Hnum.
Qed.

Lemma or_else_not_zero (v : value) (fallback : string) (q : Q) :
  or_else v (JStr fallback) = JNum q → ¬ (q == 0)%Q.
Proof.
  unfold or_else. destruct (truthy v) eqn:Htruthy; [|done].
  intros -> Hq. apply truthy_zero in Hq. congruence.
Qed.

(** C10.  When the GeoNames provider succeeds, the result carries
    [population || "Data unavailable"]: a population that is missing or
    zero is reported as the string "Data unavailable", and the number 0
    is never returned. *)
Theorem geonames_population (w : World) (cityName : string) (st st1 : State)
    (resp : response) (geonames len cityData population : value) :
  axiosWithRotation w (geoNamesUrl w cityName) st = (Return resp, st1) →
  get (data resp) "geonames" = Some geonames →
  get geonames "length" = Some len →
  gt0 (number_to_string w) (string_gt0 w) len = Some true →
  first geonames = Some cityData →
  get cityData "population" = Some population →
  ∃ result,
    fetchCityInfo w cityName st = (Return result, st1)
    ∧ get result "source" = Some (JStr (geoNamesUrl w cityName))
    ∧ get result "population" = Some (or_else population (JStr "Data unavailable"))
    ∧ ((population = JUndef ∨ ∃ q, population = JNum q ∧ (q == 0)%Q) →
       get result "population" = Some (JStr "Data unavailable"))
    ∧ ∀ q, get result "population" = Some (JNum q) → ¬ (q == 0)%Q.
Proof.
  intros Hfetch Hgeonames Hlen Hpositive Hfirst Hpopulation.
  assert (Hresult : ∃ name country lat lng,
            geonames_result w cityName cityData
            = Some (JObj [("name", name);
                          ("population", or_else population (JStr "Data unavailable"));
                          ("country", country);
                          ("coordinates", JObj [("lat", lat); ("lon", lng)]);
                          ("source", JStr (geoNamesUrl w cityName))])).
  { unfold geonames_result. destruct cityData; try discriminate Hpopulation;
      simpl in *; injection Hpopulation as <-; eauto 10. }
  destruct Hresult as (name & country & lat & lng & Hresult).
  eexists. split.
  - unfold fetchCityInfo, attempt, try_catch, geonames_body, bind at 1 2.
    rewrite Hfetch. unfold bind, lift.
    rewrite Hgeonames. simpl. rewrite Hlen. simpl. rewrite Hpositive.
    rewrite Hfirst. simpl. rewrite Hresult. reflexivity.
  - simpl. repeat split.
    + intros [->|(q & -> & Hq)]; [done|].
      unfold or_else. by rewrite (truthy_zero q Hq).
    + intros q [= Hq]. by apply or_else_not_zero in Hq.
Qed.

Lemma geonames_population_witness :
  ∃ result st1,
    fetchCityInfo ghost_town "Pripyat" fresh = (Return result, st1)
    ∧ get result "population" = Some (JStr "Data unavailable").
Proof.
  edestruct (geonames_population ghost_town "Pripyat" fresh)
    as (result & Hrun & _ & _ & Hzero & _).
  - vm_compute. reflexivity.
  - vm_compute. reflexivity.
  - vm_compute. reflexivity.
  - vm_compute. reflexivity.
  - vm_compute. reflexivity.
  - vm_compute. reflexivity.
  - exists result. eexists. split; [exact Hrun|].
    apply Hzero. right. exists 0%Q. split; reflexivity.
Defined.

Lemma first_success_result (P : value → Prop) (ps : list (M (option value)))
    (fallback : value) :
  Forall (λ p, ∀ st r st', p st = (Return (Some r), st') → P r) ps →
  P fallback →
  ∀ st r st', first_success ps fallback st = (Return r, st') → P r.
Proof.
  intros Hps Hfallback. induction Hps as [|p ps Hp _ IH]; intros st r st'; simpl.
  - by intros [= <- _].
  - unfold bind. destruct (p st) as [[[r0|]|e] s] eqn:Hrun; [|by eauto|done].
    intros [= <- <-]. by eapply Hp.
Qed.

Lemma attempt_result (P : value → Prop) (body : M (option value)) :
  (∀ st r st', body st = (Return (Some r), st') → P r) →
  ∀ st r st', attempt body st = (Return (Some r), st') → P r.
Proof.
  intros Hbody st r st'. unfold attempt, try_catch, ret.
  destruct (body st) as [[o|e] s] eqn:Hrun; [|done].
  intros [= -> <-]. by eapply Hbody.
Qed.

Lemma geonames_result_no_data (w : World) (cityName : string) (cityData r : value) :
  geonames_result w cityName cityData = Some r → get r "data" = Some JUndef.
Proof. unfold geonames_result. destruct cityData; simpl; by intros [= <-]. Qed.

Lemma wikipedia_result_no_data (cityName : string) (summary r : value) :
  wikipedia_result cityName summary = Some r → get r "data" = Some JUndef.
Proof. unfold wikipedia_result. destruct summary; simpl; by intros [= <-]. Qed.

Lemma geocoding_result_no_data (w : World) (cityName : string) (location r : value) :
  geocoding_result w cityName location = Some r → get r "data" = Some JUndef.
Proof. unfold geocoding_result. destruct location; simpl; by intros [= <-]. Qed.

(** None of the objects [fetchCityInfo] returns has a [data] property. *)
Lemma fetchCityInfo_no_data (w : World) (cityName : string) (st : State) r st' :
  fetchCityInfo w cityName st = (Return r, st') → get r "data" = Some JUndef.
Proof.
  change (fetchCityInfo w cityName st)
    with (fetch_category w CityInfo cityName st).
  rewrite fetch_category_first_success.
  apply first_success_result with (P := λ r, get r "data" = Some JUndef); [|done].
  simpl. repeat constructor; apply attempt_result; clear; intros st r st'.
  - unfold geonames_body, bind, lift, ret, throw.
    repeat (case_match; try done); intros; simplify_eq.
    by eapply geonames_result_no_data.
  - unfold returning, wikipedia_body, bind, lift, ret, throw.
    repeat (case_match; try done); intros; simplify_eq.
    by eapply wikipedia_result_no_data.
  - unfold geocoding_body, bind, lift, ret, throw.
    repeat (case_match; try done); intros; simplify_eq.
    by eapply geocoding_result_no_data.
Qed.

(** The handler reads [cityResponse.value.data], which no result of
    [fetchCityInfo] has: under the sequential schedule the response is a
    200 whose [city_info] is [undefined], whatever the providers
    answered. *)
Lemma city_handler_city_info (w : World) (cityName : string) (st : State) :
  status (fst (city_handler w cityName st)) = 200%nat
  ∧ get (body (fst (city_handler w cityName st))) "city_info" = Some JUndef.
Proof.
  unfold city_handler, settle.
  destruct (fetch_category_returns w CityInfo cityName st) as (r & st1 & Hcity).
  simpl in Hcity. rewrite Hcity.
  repeat (match goal with
          | |- context [let '(_, _) := match ?m with _ => _ end in _] =>
              destruct m as [[?|?] ?]
          end).
  all: unfold respond, composite;
    rewrite (fetchCityInfo_no_data w cityName st r st1 Hcity); simpl; done.
Qed.

(** C1.  The request for "Paris" with GeoNames timing out and Wikipedia
    answering: the city-information chain returns the object built from
    the Wikipedia summary, with [source] the Wikipedia URL and no
    [population]; yet the response of the handler has [city_info]
    undefined, since the handler reads the [data] property of that
    object. *)
Theorem paris_city_info_is_lost :
  fst (fetchCityInfo paris "Paris" fresh)
  = Return (JObj [("name", JStr "Paris");
                  ("description", JStr "Paris is the capital and largest city of France.");
                  ("image", JStr "https://upload.wikimedia.org/paris.jpg");
                  ("source", JStr "https://en.wikipedia.org/api/rest_v1/page/summary/Paris")])
  ∧ status (fst (city_handler paris "Paris" fresh)) = 200%nat
  ∧ get (body (fst (city_handler paris "Paris" fresh))) "city_info" = Some JUndef
  ∧ get_opt (get_opt (body (fst (city_handler paris "Paris" fresh))) "city_info") "source"
    = JUndef.
Proof. repeat split; vm_compute; reflexivity. Qed.

(** * Further properties of the code *)

(** ** Proxy selection *)

(** A proxy handed back by the retry loop is on file, and the last thing
    the loop did was a probe through it that came back. *)
Lemma getValidProxy_loop_member (w : World) (budget : nat) (st : State)
    (proxy : Proxy) (st' : State) :
  getValidProxy_loop w budget st = (Return proxy, st') →
  proxy ∈ proxyList w
  ∧ (∃ h, trace st' = Probe (proxy_config proxy) :: h
          ∧ probe_ok w h (proxy_config proxy) = true)
  ∧ (probe_attempts (trace st) < probe_attempts (trace st'))%nat.
Proof.
  revert st. induction budget as [|budget IH]; intros st; simpl; [done|].
  destruct (proxyList w) as [|p0 ps] eqn:Hlist; [done|].
  destruct ((p0 :: ps) !! _) as [picked|] eqn:Hpick; [|by apply IH].
  unfold bind. rewrite validateProxy_run.
  destruct (probe_ok w (trace st) (proxy_config picked)) eqn:Hprobe.
  - intros [= <- <-]. split; [by eapply list_elem_of_lookup_2|].
    split; [by exists (trace st)|]. unfold probe_attempts. simpl. lia.
  - intros Hrun. apply IH in Hrun as (Hin & Hlast & Hcount).
    split; [done|]. split; [done|].
    unfold probe_attempts in *. simpl in Hcount. lia.
Qed.

(** X1.  When [getValidProxy] returns, the server is not in production, the
    proxy is an entry of the proxy list, and the latest outbound effect is
    the successful probe through that proxy; between one and [maxRetries]
    probes were made and the cache is as before. *)
Theorem getValidProxy_returns_validated (w : World) (maxRetries : nat)
    (st st' : State) (proxy : Proxy) :
  getValidProxy w maxRetries st = (Return proxy, st') →
  production w = false
  ∧ proxy ∈ proxyList w
  ∧ (∃ h, trace st' = Probe (proxy_config proxy) :: h
          ∧ probe_ok w h (proxy_config proxy) = true)
  ∧ (probe_attempts (trace st) < probe_attempts (trace st')
     ≤ probe_attempts (trace st) + maxRetries)%nat
  ∧ cache st' = cache st.
Proof.
  unfold getValidProxy. destruct (production w) eqn:Hprod; [done|]. intros Hrun.
  destruct (getValidProxy_loop_member w maxRetries st proxy st' Hrun)
    as (Hin & Hlast & Hmore).
  destruct (getValidProxy_loop_effects w maxRetries st _ st' Hrun)
    as (Hcache & _ & newer & Hnewer & Hprobes & Hlen).
  repeat split; try done.
  rewrite Hnewer, probe_attempts_app.
  apply only_probes_counts in Hprobes as (-> & _). lia.
Qed.

Lemma getValidProxy_returns_validated_witness :
  ∃ proxy st', getValidProxy live_proxies 5 fresh = (Return proxy, st')
               ∧ proxy ∈ proxyList live_proxies
               ∧ probe_attempts (trace st') = 1%nat.
Proof.
  eexists _, _. split; [vm_compute; reflexivity|].
  edestruct (getValidProxy_returns_validated live_proxies 5 fresh) as (_ & Hin & _ & _ & _).
  - vm_compute. reflexivity.
  - split; [exact Hin | reflexivity].
Defined.

(** X2.  Success on the first pick ends the selection: outside production,
    with a retry budget of at least one, if the probe through the first
    proxy drawn comes back, that proxy is returned after this single
    probe. *)
Theorem getValidProxy_first_pick (w : World) (maxRetries : nat) (st : State)
    (proxy : Proxy) :
  production w = false →
  (0 < maxRetries)%nat →
  proxyList w !! (random_draw w (trace st) `mod` length (proxyList w))%nat = Some proxy →
  probe_ok w (trace st) (proxy_config proxy) = true →
  getValidProxy w maxRetries st
  = (Return proxy, record (Probe (proxy_config proxy)) (latency w (trace st)) st).
Proof.
  intros Hdev Hbudget Hpick Hok. unfold getValidProxy. rewrite Hdev.
  destruct maxRetries as [|budget]; [lia|]. simpl.
  destruct (proxyList w) as [|p0 ps] eqn:Hlist; [done|].
  rewrite Hpick. unfold bind. by rewrite validateProxy_run, Hok.
Qed.

Lemma getValidProxy_first_pick_witness :
  getValidProxy live_proxies 5 fresh
  = (Return proxy_a, record (Probe (proxy_config proxy_a)) 250 fresh).
Proof.
  apply (getValidProxy_first_pick live_proxies 5 fresh proxy_a).
  - reflexivity.
  - lia.
  - reflexivity.
  - reflexivity.
Defined.

(** X3.  Whatever its outcome, [getValidProxy(maxRetries)] makes at most
    [maxRetries] probes and nothing else: it creates no user agent, calls
    no upstream, leaves the cache alone and never turns the clock back. *)
Theorem getValidProxy_only_probes (w : World) (maxRetries : nat) (st : State) :
  let st' := snd (getValidProxy w maxRetries st) in
  (probe_attempts (trace st) ≤ probe_attempts (trace st')
   ≤ probe_attempts (trace st) + maxRetries)%nat
  ∧ user_agents (trace st') = user_agents (trace st)
  ∧ (∀ url, upstream_calls url (trace st') = upstream_calls url (trace st))
  ∧ cache st' = cache st
  ∧ now st ≤ now st'.
Proof.
  unfold getValidProxy. destruct (production w).
  { simpl. repeat split; lia. }
  destruct (getValidProxy_loop w maxRetries st) as [o st'] eqn:Hrun. simpl.
  apply getValidProxy_loop_effects in Hrun
    as (Hcache & Hnow & newer & -> & Hprobes & Hlen).
  apply only_probes_counts in Hprobes as (Hcount & Hua & Hget).
  rewrite probe_attempts_app, user_agents_app, Hcount, Hua.
  repeat split; try done; try lia.
  intros url. by rewrite upstream_calls_app, Hget.
Qed.

(** ** The cached fetcher *)

(** The state after the answer to [axios.get(url, ...)] has been stored. *)
Lemma axiosWithRotation_miss_production (w : World) (url : string) (st : State) :
  truthy (cached url st) = false →
  production w = true →
  axiosWithRotation w url st
  = let ua := fresh_user_agent w (trace st) in
    let sent := record (Get url ua None) (latency w (trace (with_user_agent w st)))
                       (with_user_agent w st) in
    match upstream w (trace (with_user_agent w st)) url ua None with
    | Some payload =>
        (Return {| data := payload |},
         {| cache := <[url := (payload, now sent + stdTTL * 1000)]> (cache sent);
            now := now sent;
            trace := trace sent |})
    | None => (Throw (Error "Failed to fetch data from the source."), sent)
    end.
Proof.
  intros Hmiss Hprod.
  unfold axiosWithRotation, bind at 1 2, new_UserAgent, cache_get.
  fold (with_user_agent w st). rewrite cached_with_user_agent, Hmiss, Hprod.
  unfold try_catch, bind, axios_get, cache_set, ret, throw. simpl.
  by destruct (upstream w _ url _ None).
Qed.

Lemma axiosWithRotation_miss_dev (w : World) (url : string) (st : State) :
  truthy (cached url st) = false →
  production w = false →
  axiosWithRotation w url st
  = let ua := fresh_user_agent w (trace st) in
    match getValidProxy_loop w 5 (with_user_agent w st) with
    | (Return proxy, before) =>
        let sent := record (Get url ua (Some (proxy_config proxy)))
                           (latency w (trace before)) before in
        match upstream w (trace before) url ua (Some (proxy_config proxy)) with
        | Some payload =>
            (Return {| data := payload |},
             {| cache := <[url := (payload, now sent + stdTTL * 1000)]> (cache sent);
                now := now sent;
                trace := trace sent |})
        | None =>
            (Throw (Error "Failed to fetch data from the source after proxy retries."),
             sent)
        end
    | (Throw _, before) =>
        (Throw (Error "Failed to fetch data from the source after proxy retries."),
         before)
    end.
Proof.
  intros Hmiss Hdev.
  unfold axiosWithRotation, bind at 1 2, new_UserAgent, cache_get.
  fold (with_user_agent w st). rewrite cached_with_user_agent, Hmiss, Hdev.
  unfold try_catch, bind at 1, getValidProxy. rewrite Hdev.
  destruct (getValidProxy_loop w 5 (with_user_agent w st)) as [[proxy|e] before]; [|done].
  unfold bind, axios_get, cache_set, ret, throw. simpl.
  by destruct (upstream w (trace before) url _ _).
Qed.

(** X4.  A failed fetch is not remembered: when [axiosWithRotation(url)]
    throws, the cache is exactly as it was before the call. *)
Theorem fetch_failure_not_cached (w : World) (url : string) (st st' : State) (e : exn) :
  axiosWithRotation w url st = (Throw e, st') →
  cache st' = cache st.
Proof.
  intros Hrun. apply axiosWithRotation_run in Hrun.
  inversion Hrun; subst; simpl; congruence.
Qed.

Lemma fetch_failure_not_cached_witness :
  cache (snd (axiosWithRotation outage some_url stale)) = cache stale.
Proof.
  apply (fetch_failure_not_cached outage some_url stale _
           (Error "Failed to fetch data from the source.")).
  vm_compute. reflexivity.
Defined.

(** X5.  Whatever made a fetch fail, the caller sees one fixed message per
    mode: "Failed to fetch data from the source." in production, "Failed to
    fetch data from the source after proxy retries." otherwise, also when
    a proxy was found and the request itself failed. *)
Theorem fetch_failure_message (w : World) (url : string) (st st' : State) (e : exn) :
  axiosWithRotation w url st = (Throw e, st') →
  e = Error (if production w
             then "Failed to fetch data from the source."
             else "Failed to fetch data from the source after proxy retries.").
Proof.
  destruct (truthy (cached url st)) eqn:Hcached.
  { by rewrite fetch_hit_run. }
  destruct (production w) eqn:Hprod.
  - rewrite axiosWithRotation_miss_production by done. simpl.
    case_match; [done|]. by intros [= <- _].
  - rewrite axiosWithRotation_miss_dev by done. simpl.
    repeat case_match; try done; by intros [= <- _].
Qed.

Lemma fetch_failure_message_witness :
  fst (axiosWithRotation dead_proxies some_url fresh)
  = Throw (Error "Failed to fetch data from the source after proxy retries.").
Proof.
  destruct (axiosWithRotation dead_proxies some_url fresh) as [[r|e] st'] eqn:Hrun.
  - vm_compute in Hrun. discriminate Hrun.
  - simpl. f_equal.
    exact (fetch_failure_message dead_proxies some_url fresh st' e Hrun).
Defined.

(** X6.  A fetch of one URL never touches the cache entry of another. *)
Theorem fetch_keeps_other_entries (w : World) (url other : string) (st : State) :
  other ≠ url →
  cache (snd (axiosWithRotation w url st)) !! other = cache st !! other.
Proof.
  intros Hne. destruct (axiosWithRotation w url st) as [o st'] eqn:Hrun.
  apply axiosWithRotation_run in Hrun. simpl.
  inversion Hrun; subst; simpl; try congruence.
  rewrite lookup_insert_ne by done. congruence.
Qed.

Lemma fetch_keeps_other_entries_witness :
  cache (snd (axiosWithRotation steady "https://example.org/other.json" warm)) !! some_url
  = cache warm !! some_url.
Proof.
  apply (fetch_keeps_other_entries steady "https://example.org/other.json" some_url warm).
  vm_compute. discriminate.
Defined.

(** X7.  What a fetch returns is what the cache then holds for the URL,
    unexpired, falsy payloads included. *)
Theorem fetch_result_is_cached (w : World) (url : string) (st st' : State) (r : response) :
  axiosWithRotation w url st = (Return r, st') →
  unexpired url st' = true ∧ cached url st' = data r.
Proof.
  intros Hrun. apply axiosWithRotation_run in Hrun.
  inversion Hrun as [Hc | | before probes ua cfg payload Hc Ho Hcache Hnow Htr Hp Hup | ];
    subst.
  - unfold cached, unexpired in *. simpl in *.
    destruct (cache st !! url) as [[v expires]|]; [|done].
    by destruct (expires <? now st).
  - unfold cached, unexpired. simpl. rewrite lookup_insert_eq.
    assert (Hfresh : (now before + Z.of_N (latency w (trace before)) + stdTTL * 1000
                      <? now before + Z.of_N (latency w (trace before))) = false).
    { apply Z.ltb_ge. unfold stdTTL. lia. }
    by rewrite Hfresh.
Qed.

Lemma fetch_result_is_cached_witness :
  cached some_url (snd (axiosWithRotation empty_bodies some_url fresh)) = JStr "".
Proof.
  refine (proj2 (fetch_result_is_cached empty_bodies some_url fresh _
                   {| data := JStr "" |} _)).
  vm_compute. reflexivity.
Defined.

(** X8.  An unexpired entry that holds a falsy payload (an empty body, 0,
    false, null) does not count as a hit: such a fetch goes upstream again
    whenever it can reach its request. *)
Theorem fetch_falsy_entry_refetched (w : World) (url : string) (st : State)
    (v : value) (expires : Z) :
  cache st !! url = Some (v, expires) →
  now st ≤ expires →
  truthy v = false →
  egress_open w st = true →
  unexpired url st = true
  ∧ upstream_calls url (trace (snd (axiosWithRotation w url st)))
    = S (upstream_calls url (trace st)).
Proof.
  intros Hentry Hfresh Hfalsy Hopen.
  assert (Hunexpired : unexpired url st = true).
  { unfold unexpired. rewrite Hentry. by destruct (Z.ltb_spec expires (now st)); [lia|]. }
  split; [done|].
  assert (Hcached : cached url st = v).
  { unfold cached. by rewrite Hentry, Hunexpired. }
  destruct (axiosWithRotation w url st) as [o st'] eqn:Hrun.
  apply axiosWithRotation_run in Hrun. simpl.
  apply (fetch_run_miss w url st o st'); [done| |done]. by rewrite Hcached.
Qed.

Lemma fetch_falsy_entry_refetched_witness :
  unexpired some_url hollow = true
  ∧ upstream_calls some_url (trace (snd (axiosWithRotation empty_bodies some_url hollow)))
    = 1%nat.
Proof.
  apply (fetch_falsy_entry_refetched empty_bodies some_url hollow (JStr "") 1700000600000).
  - reflexivity.
  - simpl. lia.
  - reflexivity.
  - reflexivity.
Defined.

(** X9.  In production a fetch that misses the cache does exactly two
    things to the outside: it creates a user agent and sends one request,
    without a proxy and with that user agent; it never probes. *)
Theorem fetch_production_direct (w : World) (url : string) (st : State) :
  production w = true →
  truthy (cached url st) = false →
  trace (snd (axiosWithRotation w url st))
  = [Get url (fresh_user_agent w (trace st)) None;
     UserAgentCreated (fresh_user_agent w (trace st))] ++ trace st.
Proof.
  intros Hprod Hmiss. rewrite axiosWithRotation_miss_production by done.
  simpl. by case_match.
Qed.

Lemma fetch_production_direct_witness :
  trace (snd (axiosWithRotation outage some_url fresh))
  = [Get some_url "Mozilla/5.0 (X11; Linux x86_64)" None;
     UserAgentCreated "Mozilla/5.0 (X11; Linux x86_64)"].
Proof.
  apply (fetch_production_direct outage some_url fresh); reflexivity.
Defined.

(** X10.  Outside production every request that reaches upstream goes
    through a proxy from the list, and the effect just before the request
    is the probe through that same proxy, which came back; the request
    carries the user agent created at the start of the call. *)
Theorem fetch_proxied_request_validated (w : World) (url : string) (st : State) :
  production w = false →
  upstream_calls url (trace (snd (axiosWithRotation w url st)))
  = S (upstream_calls url (trace st)) →
  ∃ proxy h,
    proxy ∈ proxyList w
    ∧ trace (snd (axiosWithRotation w url st))
      = Get url (fresh_user_agent w (trace st)) (Some (proxy_config proxy))
        :: Probe (proxy_config proxy) :: h
    ∧ probe_ok w h (proxy_config proxy) = true.
Proof.
  intros Hdev. destruct (truthy (cached url st)) eqn:Hcached.
  { rewrite fetch_hit_run by done. unfold upstream_calls. simpl. lia. }
  rewrite axiosWithRotation_miss_dev by done. cbv zeta.
  destruct (getValidProxy_loop w 5 (with_user_agent w st)) as [[proxy|e] before] eqn:Hloop.
  - apply getValidProxy_loop_member in Hloop as (Hin & (h & Hlast & Hok) & _).
    intros _. exists proxy, h. split; [done|]. split; [|done].
    case_match; simpl; by rewrite Hlast.
  - apply getValidProxy_loop_effects in Hloop as (_ & _ & newer & Hbefore & Hprobes & _).
    apply only_probes_counts in Hprobes as (_ & _ & Hget).
    simpl. rewrite Hbefore, upstream_calls_app, Hget. unfold upstream_calls. simpl. lia.
Qed.

Lemma fetch_proxied_request_validated_witness :
  ∃ proxy h,
    proxy ∈ proxyList live_proxies
    ∧ trace (snd (axiosWithRotation live_proxies some_url fresh))
      = Get some_url "Mozilla/5.0 (X11; Linux x86_64)" (Some (proxy_config proxy))
        :: Probe (proxy_config proxy) :: h.
Proof.
  destruct (fetch_proxied_request_validated live_proxies some_url fresh)
    as (proxy & h & Hin & Htrace & _).
  - reflexivity.
  - vm_compute. reflexivity.
  - exists proxy, h. split; [exact Hin | exact Htrace].
Defined.

Lemma fetch_probe_count (w : World) (url : string) (st : State) :
  ∃ k, (k ≤ 5)%nat
       ∧ probe_attempts (trace (snd (axiosWithRotation w url st)))
         = (probe_attempts (trace st) + k)%nat
       ∧ (production w = true ∨ truthy (cached url st) = true → k = 0%nat).
Proof.
  destruct (truthy (cached url st)) eqn:Hcached.
  { exists 0%nat. rewrite fetch_hit_run by done. unfold probe_attempts. simpl.
    repeat split; lia. }
  destruct (production w) eqn:Hprod.
  - exists 0%nat. rewrite axiosWithRotation_miss_production by done. cbv zeta.
    case_match; unfold probe_attempts; simpl; repeat split; lia.
  - rewrite axiosWithRotation_miss_dev by done. cbv zeta.
    destruct (getValidProxy_loop w 5 (with_user_agent w st)) as [o before] eqn:Hloop.
    apply getValidProxy_loop_effects in Hloop
      as (_ & _ & newer & Hbefore & Hprobes & Hlen).
    apply only_probes_counts in Hprobes as (Hcount & _).
    exists (length newer). split; [done|]. split; [|by intros [?|?]].
    assert (Hkept : probe_attempts (trace before) = (probe_attempts (trace st) + length newer)%nat).
    { rewrite Hbefore, probe_attempts_app, Hcount. unfold probe_attempts. simpl. lia. }
    destruct o; [case_match|]; simpl; try done;
      unfold probe_attempts in *; simpl; done.
Qed.

(** X11.  One fetch makes at most five probes (the default retry budget)
    and at most one request to its URL; in production, and on a cache
    hit, it makes no probe at all. *)
Theorem fetch_probe_budget (w : World) (url : string) (st : State) :
  let st' := snd (axiosWithRotation w url st) in
  (probe_attempts (trace st) ≤ probe_attempts (trace st')
   ≤ probe_attempts (trace st) + 5)%nat
  ∧ (upstream_calls url (trace st') ≤ S (upstream_calls url (trace st)))%nat
  ∧ (production w = true ∨ truthy (cached url st) = true →
     probe_attempts (trace st') = probe_attempts (trace st)).
Proof.
  intros st'. subst st'.
  destruct (fetch_probe_count w url st) as (k & Hk & Hcount & Hzero).
  split; [lia|]. split.
  - destruct (axiosWithRotation w url st) as [o st'] eqn:Hrun.
    apply axiosWithRotation_run, fetch_run_counts in Hrun as (_ & _ & Hcalls & _).
    simpl. lia.
  - intros Hcase. rewrite Hcount, (Hzero Hcase). lia.
Qed.

(** X12.  Outside production with an empty proxy list no request ever
    leaves: a fetch that misses the cache throws after creating its user
    agent, without a probe and without a call upstream. *)
Theorem fetch_without_proxies (w : World) (url : string) (st : State) :
  production w = false →
  proxyList w = [] →
  truthy (cached url st) = false →
  axiosWithRotation w url st
  = (Throw (Error "Failed to fetch data from the source after proxy retries."),
     with_user_agent w st).
Proof.
  intros Hdev Hempty Hmiss. rewrite axiosWithRotation_miss_dev by done.
  simpl. by rewrite Hempty.
Qed.

Lemma fetch_without_proxies_witness :
  axiosWithRotation no_proxies some_url fresh
  = (Throw (Error "Failed to fetch data from the source after proxy retries."),
     with_user_agent no_proxies fresh).
Proof. apply (fetch_without_proxies no_proxies some_url fresh); reflexivity. Defined.

(** ** Normalisers of the chains *)

Lemma mapM_all_some {A B : Type} (f : A → option B) (g : A → B) (l : list A) :
  Forall (λ x, f x = Some (g x)) l → mapM f l = Some (map g l).
Proof.
  induction 1 as [|x l Hx _ IH]; [done|].
  cbn. rewrite Hx. cbn. by rewrite IH.
Qed.

Lemma get_of_present (v : value) (k : string) :
  v ≠ JNull → v ≠ JUndef → get v k = Some (get_opt v k).
Proof. intros Hnull Hundef. unfold get_opt. by destruct v. Qed.

(** X13.  The news normaliser keeps the titles of the first ten articles,
    in order, and nothing else: articles after the tenth are not looked at,
    and an article without a title contributes [undefined]. *)
Theorem news_titles_first_ten_articles (payload : value) (items : list value) :
  get payload "articles" = Some (JArr items) →
  Forall (λ article, article ≠ JNull ∧ article ≠ JUndef) (take 10 items) →
  news_titles payload
  = Some (JArr (map (λ article, get_opt article "title") (take 10 items)))
  ∧ (length (take 10 items) ≤ 10)%nat.
Proof.
  intros Harticles Hpresent. split; [|rewrite length_take; lia].
  unfold news_titles. rewrite Harticles. cbn.
  rewrite (mapM_all_some _ (λ article, get_opt article "title")); [done|].
  eapply Forall_impl; [exact Hpresent|]. intros article [Hnull Hundef].
  by apply get_of_present.
Qed.

Lemma news_titles_first_ten_articles_witness :
  news_titles (JObj [("articles", JArr twelve_articles)])
  = Some (JArr [JStr "a"; JStr "b"; JStr "c"; JStr "d"; JStr "e";
                JStr "f"; JStr "g"; JStr "h"; JStr "i"; JStr "j"]).
Proof.
  refine (proj1 (news_titles_first_ten_articles
                   (JObj [("articles", JArr twelve_articles)]) twelve_articles _ _)).
  - reflexivity.
  - vm_compute. repeat constructor; discriminate.
Defined.

(** X14.  A [null] among the first ten articles makes the normaliser raise
    (the provider then counts as failed), and so does an [articles] field
    that is not an array. *)
Theorem news_titles_rejects (payload articles : value) :
  get payload "articles" = Some articles →
  (∀ items, articles ≠ JArr items) ∨ (∃ items, articles = JArr items ∧ JNull ∈ take 10 items) →
  news_titles payload = None.
Proof.
  intros Harticles Hbad. unfold news_titles. rewrite Harticles. cbn.
  destruct Hbad as [Hshape|(items & -> & Hnull)].
  - destruct articles; try done. by destruct (Hshape items).
  - cbn. apply list_elem_of_lookup in Hnull as [i Hi].
    destruct (mapM _ (take 10 items)) as [titles|] eqn:Hmap; [|done].
    apply mapM_Some_1 in Hmap.
    destruct (Forall2_lookup_l _ _ _ _ _ Hmap Hi) as (title & _ & Hget). done.
Qed.

Lemma news_titles_rejects_witness :
  news_titles (JObj [("articles", JArr [JObj [("title", JStr "a")]; JNull])]) = None.
Proof.
  apply (news_titles_rejects _ (JArr [JObj [("title", JStr "a")]; JNull])).
  - reflexivity.
  - right. eexists. split; [reflexivity|]. vm_compute. apply list_elem_of_further, list_elem_of_here.
Defined.

Lemma array_map_shape (f : value → option value) (v r : value) :
  array_map f v = Some r →
  ∃ items results, v = JArr items ∧ r = JArr results
                   ∧ Forall2 (λ x y, f x = Some y) items results.
Proof.
  destruct v; try done. cbn.
  destruct (mapM f items) as [results|] eqn:Hmap; [|done].
  intros [= <-]. exists items, results. repeat split. by apply mapM_Some_1.
Qed.

Lemma slice_0_10_array (v : value) (items : list value) :
  slice_0_10 v = Some (JArr items) → (length items ≤ 10)%nat.
Proof.
  destruct v; try done. cbn. intros [= <-]. rewrite length_take. lia.
Qed.

Lemma news_titles_bound (payload titles : value) :
  news_titles payload = Some titles →
  ∃ l, titles = JArr l ∧ (length l ≤ 10)%nat.
Proof.
  unfold news_titles. destruct (get payload "articles") as [articles|]; [|done]. cbn.
  destruct (slice_0_10 articles) as [first10|] eqn:Hslice; [|done]. cbn.
  intros (items & results & -> & -> & Hmap)%array_map_shape.
  exists results. split; [done|].
  apply slice_0_10_array in Hslice. apply Forall2_length in Hmap. lia.
Qed.

Lemma event_lines_shape (w : World) (payload lines : value) :
  event_lines w payload = Some lines →
  ∃ l, lines = JArr l ∧ (length l ≤ 10)%nat
       ∧ Forall (λ line, ∃ title venue, line = JStr (title +:+ " at " +:+ venue)) l.
Proof.
  unfold event_lines. destruct (get payload "events") as [events|]; [|done]. cbn.
  destruct (slice_0_10 _) as [first10|] eqn:Hslice; [|done]. cbn.
  intros (items & results & -> & -> & Hmap)%array_map_shape.
  exists results. split; [done|]. split.
  - apply slice_0_10_array in Hslice. apply Forall2_length in Hmap. lia.
  - clear Hslice. induction Hmap as [|e line items results Hline _ IH]; constructor; [|done].
    unfold event_line in Hline.
    destruct (get e "title") as [title|]; [|done]. cbn in Hline.
    destruct (str w title) as [title_text|]; [|done]. cbn in Hline.
    destruct (get e "venue_name") as [venue|]; [|done]. cbn in Hline.
    destruct (str w venue) as [venue_text|]; [|done]. cbn in Hline.
    injection Hline as <-. eauto.
Qed.

(** ** What the chains return *)

(** X15.  [fetchNewsData] returns either the "News data unavailable" object
    or an object whose [data] is an array of at most ten titles and whose
    [source] is one of the two news URLs. *)
Theorem fetchNewsData_result (w : World) (cityName : string) (st st' : State) (r : value) :
  fetchNewsData w cityName st = (Return r, st') →
  r = news_unavailable
  ∨ ∃ titles url,
      r = JObj [("data", JArr titles); ("source", JStr url)]
      ∧ url ∈ newsUrls w cityName
      ∧ (length titles ≤ 10)%nat.
Proof.
  change (fetchNewsData w cityName st) with (fetch_category w News cityName st).
  rewrite fetch_category_first_success.
  apply first_success_result
    with (P := λ r, r = news_unavailable
                    ∨ ∃ titles url,
                        r = JObj [("data", JArr titles); ("source", JStr url)]
                        ∧ url ∈ newsUrls w cityName
                        ∧ (length titles ≤ 10)%nat); [|by left].
  simpl. repeat first [apply Forall_nil_2 | apply Forall_cons_2];
    apply attempt_result; clear; intros st r st';
    unfold returning, news_body, bind, lift, ret, throw;
    repeat (case_match; try done); intros; simplify_eq;
    match goal with
    | H : news_titles _ = Some _ |- _ =>
        apply news_titles_bound in H as (titles & -> & Hlen)
    end;
    right; eexists _, _; (split; [reflexivity|]); (split; [|done]);
    unfold newsUrls; set_solver.
Qed.

Lemma fetchNewsData_result_witness :
  ∃ r, fst (fetchNewsData headlines "Paris" fresh) = Return r
       ∧ (r = news_unavailable
          ∨ ∃ titles url,
              r = JObj [("data", JArr titles); ("source", JStr url)]
              ∧ url ∈ newsUrls headlines "Paris"
              ∧ (length titles ≤ 10)%nat).
Proof.
  eexists. split; [vm_compute; reflexivity|].
  eapply (fetchNewsData_result headlines "Paris" fresh).
  vm_compute. reflexivity.
Defined.

(** X16.  [fetchEventsData] returns either the "Events data unavailable"
    object or an object whose [source] is the events URL and whose [data]
    is an array of at most ten strings of the form "title at venue". *)
Theorem fetchEventsData_result (w : World) (cityName : string) (st st' : State) (r : value) :
  fetchEventsData w cityName st = (Return r, st') →
  r = events_unavailable
  ∨ ∃ lines,
      r = JObj [("data", JArr lines); ("source", JStr (eventsUrl w cityName))]
      ∧ (length lines ≤ 10)%nat
      ∧ Forall (λ line, ∃ title venue, line = JStr (title +:+ " at " +:+ venue)) lines.
Proof.
  unfold fetchEventsData, try_catch, events_body, bind, lift, ret, throw.
  repeat (case_match; try done); intros; simplify_eq; try by left.
  match goal with
  | H : event_lines _ _ = Some _ |- _ =>
      apply event_lines_shape in H as (lines & -> & Hlen & Hshape)
  end.
  right. by exists lines.
Qed.

Lemma fetchEventsData_result_witness :
  ∃ r, fst (fetchEventsData quiet_town "Paris" fresh) = Return r
       ∧ (r = events_unavailable
          ∨ ∃ lines,
              r = JObj [("data", JArr lines);
                        ("source", JStr (eventsUrl quiet_town "Paris"))]
              ∧ (length lines ≤ 10)%nat
              ∧ Forall (λ line, ∃ title venue, line = JStr (title +:+ " at " +:+ venue))
                       lines).
Proof.
  eexists. split; [vm_compute; reflexivity|].
  eapply (fetchEventsData_result quiet_town "Paris" fresh).
  vm_compute. reflexivity.
Defined.

(** X17.  An answer of the events service without a usable [event] list
    (no [events.event], or a falsy one) is not a failure: the chain returns
    an empty list with the events URL as [source]. *)
Theorem fetchEventsData_no_events (w : World) (cityName : string) (st st1 : State)
    (resp : response) (events : value) :
  axiosWithRotation w (eventsUrl w cityName) st = (Return resp, st1) →
  get (data resp) "events" = Some events →
  truthy (get_opt events "event") = false →
  fetchEventsData w cityName st
  = (Return (JObj [("data", JArr []); ("source", JStr (eventsUrl w cityName))]), st1).
Proof.
  intros Hfetch Hevents Hnone.
  unfold fetchEventsData, try_catch, events_body, bind. rewrite Hfetch.
  unfold event_lines. rewrite Hevents. cbn. unfold or_else. by rewrite Hnone.
Qed.

Lemma fetchEventsData_no_events_witness :
  fst (fetchEventsData quiet_town "Paris" fresh)
  = Return (JObj [("data", JArr []);
                  ("source", JStr "https://api.eventful.com/json/events/search?location=Paris&app_key=k3y")]).
Proof.
  erewrite (fetchEventsData_no_events quiet_town "Paris" fresh _
              {| data := JObj [("events", JNull)] |} JNull).
  - reflexivity.
  - vm_compute. reflexivity.
  - reflexivity.
  - reflexivity.
Defined.

(** X18.  With a location found and the flow service answering, a speed
    that is missing or falsy (a reported speed of 0 included) gives
    "Traffic data unavailable", yet with the flow URL as [source]. *)
Theorem fetchTrafficData_no_speed (w : World) (cityName : string) (st st1 st2 : State)
    (geoResponse trafficResponse : response) (location lat lon : value) (url : string) :
  axiosWithRotation w (geoCodingUrl w cityName) st = (Return geoResponse, st1) →
  first (data geoResponse) = Some location →
  truthy location = true →
  get location "lat" = Some lat →
  get location "lon" = Some lon →
  trafficUrl w lat lon = Some url →
  axiosWithRotation w url st1 = (Return trafficResponse, st2) →
  truthy (get_opt (get_opt (data trafficResponse) "flowSegmentData") "currentSpeed") = false →
  fetchTrafficData w cityName st
  = (Return (JObj [("traffic_status", JStr "Traffic data unavailable");
                   ("source", JStr url)]), st2).
Proof.
  intros Hgeo Hfirst Htruthy Hlat Hlon Hurl Hflow Hspeed.
  unfold fetchTrafficData, try_catch, traffic_body, bind at 1. rewrite Hgeo.
  unfold bind at 1. rewrite Hfirst. simpl. rewrite Htruthy. simpl.
  unfold bind at 1. rewrite Hlat. simpl.
  unfold bind at 1. rewrite Hlon. simpl.
  unfold bind at 1. rewrite Hurl. simpl.
  unfold bind at 1. rewrite Hflow.
  unfold traffic_status. rewrite Hspeed. reflexivity.
Qed.

Lemma fetchTrafficData_no_speed_witness :
  fst (fetchTrafficData standstill "Paris" fresh)
  = Return (JObj [("traffic_status", JStr "Traffic data unavailable");
                  ("source", JStr "https://api.tomtom.com/traffic/services/4/flowSegmentData/absolute/10/json?key=k3y&point=48.85,2.35")]).
Proof.
  erewrite (fetchTrafficData_no_speed standstill "Paris" fresh).
  - reflexivity.
  - vm_compute. reflexivity.
  - vm_compute. reflexivity.
  - reflexivity.
  - vm_compute. reflexivity.
  - vm_compute. reflexivity.
  - vm_compute. reflexivity.
  - vm_compute. reflexivity.
  - reflexivity.
Defined.

Lemma traffic_status_cases (w : World) (trafficData status : value) :
  traffic_status w trafficData = Some status →
  status = JStr "Traffic data unavailable"
  ∨ ∃ speed, status = JStr ("Current speed: " +:+ speed +:+ " km/h").
Proof.
  unfold traffic_status. case_match; [|intros [= <-]; by left].
  destruct (str w _) as [speed|]; [|done]. cbn. intros [= <-]. eauto.
Qed.

Lemma trafficUrl_not_None (w : World) (lat lon : value) (url : string) :
  trafficUrl w lat lon = Some url → url ≠ "None".
Proof.
  unfold trafficUrl. destruct (str w lat); [|done]. destruct (str w lon); [|done].
  cbn. intros [= <-]. discriminate.
Qed.

(** X19.  [fetchTrafficData] always returns an object with exactly the
    fields [traffic_status] and [source], both strings; the status is
    "Traffic data unavailable" or "Current speed: ... km/h", and a [source]
    of "None" only comes with the former. *)
Theorem fetchTrafficData_result (w : World) (cityName : string) (st st' : State) (r : value) :
  fetchTrafficData w cityName st = (Return r, st') →
  ∃ status source,
    r = JObj [("traffic_status", JStr status); ("source", JStr source)]
    ∧ (status = "Traffic data unavailable"
       ∨ ∃ speed, status = "Current speed: " +:+ speed +:+ " km/h")
    ∧ (source = "None" → status = "Traffic data unavailable").
Proof.
  unfold fetchTrafficData, try_catch, traffic_body, bind, lift, ret, throw.
  repeat (case_match; try done); intros; simplify_eq;
    try (by eexists _, _; split; [reflexivity|]; split; [left|]).
  match goal with
  | H : traffic_status _ _ = Some _, U : trafficUrl _ _ _ = Some _ |- _ =>
      apply traffic_status_cases in H as [->|[speed ->]];
      apply trafficUrl_not_None in U
  end.
  - eexists _, _. split; [reflexivity|]. split; [by left|done].
  - eexists _, _. split; [reflexivity|]. split; [by right; eexists|done].
Qed.

Lemma fetchTrafficData_result_witness :
  ∃ r status source,
    fst (fetchTrafficData standstill "Paris" fresh) = Return r
    ∧ r = JObj [("traffic_status", JStr status); ("source", JStr source)]
    ∧ (source = "None" → status = "Traffic data unavailable").
Proof.
  eexists.
  edestruct (fetchTrafficData_result standstill "Paris" fresh)
    as (status & source & Hshape & _ & Hnone).
  - vm_compute. reflexivity.
  - exists status, source. split; [reflexivity|]. split; [exact Hshape | exact Hnone].
Defined.

Lemma geonames_result_source (w : World) (cityName : string) (cityData r : value) :
  geonames_result w cityName cityData = Some r →
  get r "source" = Some (JStr (geoNamesUrl w cityName)).
Proof. unfold geonames_result. destruct cityData; simpl; by intros [= <-]. Qed.

Lemma wikipedia_result_source (cityName : string) (summary r : value) :
  wikipedia_result cityName summary = Some r →
  get r "source" = Some (JStr (wikipediaUrl cityName)).
Proof. unfold wikipedia_result. destruct summary; simpl; by intros [= <-]. Qed.

Lemma geocoding_result_source (w : World) (cityName : string) (location r : value) :
  geocoding_result w cityName location = Some r →
  get r "source" = Some (JStr (geoCodingUrl w cityName)).
Proof. unfold geocoding_result. destruct location; simpl; by intros [= <-]. Qed.

Ltac provider_source :=
  eexists; split;
  [ first [ reflexivity
          | by eapply geonames_result_source
          | by eapply wikipedia_result_source
          | by eapply geocoding_result_source ]
  | let H := fresh in
    intros H; exfalso; revert H;
    first [ by eapply trafficUrl_not_None
          | unfold geoNamesUrl, wikipediaUrl, geoCodingUrl, eventsUrl; simpl; discriminate ] ].

(** The [source] of what a chain returns is a string, and it is "None"
    only on the chain's "unavailable" object. *)
Lemma chain_result_source (w : World) (c : category) (cityName : string)
    (st st' : State) (r : value) :
  fetch_category w c cityName st = (Return r, st') →
  ∃ source, get r "source" = Some (JStr source)
            ∧ (source = "None" → r = unavailable c).
Proof.
  rewrite fetch_category_first_success.
  apply first_success_result
    with (P := λ r, ∃ source, get r "source" = Some (JStr source)
                              ∧ (source = "None" → r = unavailable c));
    [|by destruct c; eexists].
  destruct c; simpl; repeat first [apply Forall_nil_2 | apply Forall_cons_2];
    apply attempt_result; clear; intros st r st';
    unfold returning, geonames_body, wikipedia_body, geocoding_body, weather_body,
           news_body, events_body, traffic_body, bind, lift, ret, throw;
    repeat (case_match; try done); intros; simplify_eq; provider_source.
Qed.

(** X20.  For every category, what the chain returns carries a string
    [source], and that string is "None" exactly when the chain returned
    its "unavailable" object: a client can tell a failed category by its
    [source] alone. *)
Theorem source_None_iff_unavailable (w : World) (c : category) (cityName : string)
    (st st' : State) (r : value) :
  fetch_category w c cityName st = (Return r, st') →
  ∃ source, get r "source" = Some (JStr source)
            ∧ (source = "None" ↔ r = unavailable c).
Proof.
  intros Hrun.
  destruct (chain_result_source w c cityName st st' r Hrun) as (source & Hsource & Hnone).
  exists source. split; [done|]. split; [done|].
  intros ->. destruct c; simpl in Hsource; by injection Hsource as <-.
Qed.

Lemma source_None_iff_unavailable_witness :
  ∃ r source,
    fst (fetch_category paris CityInfo "Paris" fresh) = Return r
    ∧ get r "source" = Some (JStr source)
    ∧ (source = "None" ↔ r = unavailable CityInfo).
Proof.
  eexists.
  edestruct (source_None_iff_unavailable paris CityInfo "Paris" fresh)
    as (source & Hsource & Hiff).
  - vm_compute. reflexivity.
  - exists source. split; [reflexivity|]. split; [exact Hsource | exact Hiff].
Defined.

(** X21.  When GeoNames yields nothing (an empty result list included), any
    Wikipedia answer other than [null] ends the city-information chain:
    the result takes its name from [title], falls back to "Description
    unavailable" and "No image available" for a missing extract or
    thumbnail, and the geocoding provider is not consulted. *)
Theorem fetchCityInfo_wikipedia (w : World) (cityName : string) (st st1 st2 : State)
    (wikiResponse : response) :
  attempt (geonames_body w cityName) st = (Return None, st1) →
  axiosWithRotation w (wikipediaUrl cityName) st1 = (Return wikiResponse, st2) →
  data wikiResponse ≠ JNull →
  data wikiResponse ≠ JUndef →
  fetchCityInfo w cityName st
  = (Return (JObj [("name", get_opt (data wikiResponse) "title");
                   ("description",
                    or_else (get_opt (data wikiResponse) "extract")
                            (JStr "Description unavailable"));
                   ("image",
                    or_else (get_opt (get_opt (data wikiResponse) "thumbnail") "source")
                            (JStr "No image available"));
                   ("source", JStr (wikipediaUrl cityName))]), st2).
Proof.
  intros Hgeonames Hwiki Hnull Hundef.
  unfold fetchCityInfo, bind at 1. rewrite Hgeonames.
  unfold bind at 1, attempt, try_catch, returning, wikipedia_body, bind at 1 2.
  rewrite Hwiki. unfold wikipedia_result.
  rewrite !(get_of_present (data wikiResponse)) by done. reflexivity.
Qed.

Lemma fetchCityInfo_wikipedia_witness :
  fst (fetchCityInfo stub_article "Xanadu" fresh)
  = Return (JObj [("name", JStr "Xanadu");
                  ("description", JStr "Description unavailable");
                  ("image", JStr "No image available");
                  ("source", JStr "https://en.wikipedia.org/api/rest_v1/page/summary/Xanadu")]).
Proof.
  erewrite (fetchCityInfo_wikipedia stub_article "Xanadu" fresh _ _
              {| data := JObj [("title", JStr "Xanadu")] |}).
  - reflexivity.
  - vm_compute. reflexivity.
  - vm_compute. reflexivity.
  - discriminate.
  - discriminate.
Defined.

(** X22.  A weather request answered by the first provider with a truthy
    payload is repeatable: asked again while that cache entry is
    unexpired, the chain returns the same result from the cache, with no
    effect but one more user agent. *)
Theorem fetchWeatherData_repeat (w : World) (cityName url : string) (st st1 : State)
    (resp : response) (d : N) :
  weatherUrls w cityName !! 0%nat = Some url →
  axiosWithRotation w url st = (Return resp, st1) →
  truthy (data resp) = true →
  unexpired url (advance d st1) = true →
  fetchWeatherData w cityName st
  = (Return (JObj [("data", data resp); ("source", JStr url)]), st1)
  ∧ fetchWeatherData w cityName (advance d st1)
    = (Return (JObj [("data", data resp); ("source", JStr url)]),
       with_user_agent w (advance d st1)).
Proof.
  intros Hurl Hfetch Htruthy Hlater.
  assert (Hagain : axiosWithRotation w url (advance d st1)
                   = (Return resp, with_user_agent w (advance d st1))).
  { pose proof (axiosWithRotation_run w url st _ st1 Hfetch) as Hrun.
    destruct (fetch_run_cached w url st resp st1 Hrun Htruthy) as (expires & Hentry & _).
    assert (Hcached : cached url (advance d st1) = data resp).
    { unfold cached. rewrite Hlater. simpl. by rewrite Hentry. }
    rewrite fetch_hit_run by (by rewrite Hcached). rewrite Hcached. by destruct resp. }
  unfold fetchWeatherData, weatherUrls in *. simpl in Hurl. injection Hurl as Hurl.
  simpl. rewrite Hurl.
  unfold bind, attempt, try_catch, returning, weather_body, bind.
  by rewrite Hfetch, Hagain.
Qed.

Lemma fetchWeatherData_repeat_witness :
  fst (fetchWeatherData steady "Paris"
         (advance 60000 (snd (fetchWeatherData steady "Paris" fresh))))
  = fst (fetchWeatherData steady "Paris" fresh).
Proof.
  destruct (fetchWeatherData_repeat steady "Paris"
              "https://api.openweathermap.org/data/2.5/forecast?q=Paris&units=metric&appid=k3y"
              fresh
              (snd (axiosWithRotation steady
                      "https://api.openweathermap.org/data/2.5/forecast?q=Paris&units=metric&appid=k3y"
                      fresh))
              {| data := JObj [("ok", JBool true)] |} 60000)
    as [Hfirst Hsecond].
  - reflexivity.
  - vm_compute. reflexivity.
  - reflexivity.
  - vm_compute. reflexivity.
  - rewrite Hfirst. simpl. rewrite Hsecond. reflexivity.
Defined.

(** ** The handler and the rate limiter *)

(** X23.  Under the sequential schedule the handler always answers 200: the
    error branch is never taken, the body echoes the city name, and each of
    [weather], [news], [events] and [traffic] is a chain result carrying a
    string [source], never one of the placeholders of the rejected
    branches, which have none. *)
Theorem city_handler_always_200 (w : World) (cityName : string) (st : State) :
  let res := fst (city_handler w cityName st) in
  status res = 200%nat
  ∧ get (body res) "city" = Some (JStr cityName)
  ∧ ∀ field, field ∈ ["weather"; "news"; "events"; "traffic"] →
             ∃ source, get (get_opt (body res) field) "source" = Some (JStr source).
Proof.
  unfold city_handler, settle.
  destruct (fetch_category_returns w CityInfo cityName st) as (r1 & st1 & H1).
  destruct (fetch_category_returns w Weather cityName st1) as (r2 & st2 & H2).
  destruct (fetch_category_returns w News cityName st2) as (r3 & st3 & H3).
  destruct (fetch_category_returns w Events cityName st3) as (r4 & st4 & H4).
  destruct (fetch_category_returns w Traffic cityName st4) as (r5 & st5 & H5).
  pose proof (chain_result_source w Weather cityName st1 st2 r2 H2) as (s2 & Hs2 & _).
  pose proof (chain_result_source w News cityName st2 st3 r3 H3) as (s3 & Hs3 & _).
  pose proof (chain_result_source w Events cityName st3 st4 r4 H4) as (s4 & Hs4 & _).
  pose proof (chain_result_source w Traffic cityName st4 st5 r5 H5) as (s5 & Hs5 & _).
  simpl in H1, H2, H3, H4, H5. rewrite H1, H2, H3, H4, H5.
  unfold respond, composite.
  rewrite (fetchCityInfo_no_data w cityName st r1 st1 H1). simpl.
  split; [done|]. split; [done|].
  intros field Hfield. rewrite !elem_of_cons, elem_of_nil in Hfield.
  destruct Hfield as [->|[->|[->|[->|[]]]]]; simpl; eauto.
Qed.

(** X24.  The rate limiter refuses a request with status 400 exactly when
    the plan header is missing, empty or not one of the five plan names
    (compared as they are written); otherwise it builds a limiter with the
    window and quota of that plan and a 429 answer naming the plan.
    Reading the plan's entry never fails. *)
Theorem dynamicRateLimiter_decides (userPlan : option string) :
  (∃ error, RateLimit.dynamicRateLimiter userPlan
            = Return (RateLimit.Refused {| status := 400;
                                           body := JObj [("error", JStr error)] |})
            ∧ (userPlan = None ∨ userPlan = Some ""
               ∨ ∃ plan, userPlan = Some plan
                         ∧ plan ∉ ["free"; "basic"; "pro"; "ultra"; "ultra_premium"]))
  ∨ (∃ plan limit options,
       userPlan = Some plan
       ∧ plan ∈ ["free"; "basic"; "pro"; "ultra"; "ultra_premium"]
       ∧ (plan, limit) ∈ RateLimit.rateLimits
       ∧ RateLimit.dynamicRateLimiter userPlan = Return (RateLimit.Limited options)
       ∧ RateLimit.opt_windowMs options = RateLimit.windowMs limit
       ∧ RateLimit.opt_max options = RateLimit.max limit
       ∧ status (RateLimit.opt_handler options) = 429%nat
       ∧ body (RateLimit.opt_handler options)
         = JObj [("error", JStr ("Rate limit exceeded for '" +:+ plan
                                   +:+ "' plan. Upgrade to a higher plan for more access."))]).
Proof.
  destruct userPlan as [plan|]; [|left; eexists; split; [reflexivity|by left]].
  unfold RateLimit.dynamicRateLimiter.
  destruct (String.eqb_spec plan "") as [->|Hnonempty].
  { left. eexists. split; [reflexivity|]. by right; left. }
  simpl.
  destruct (String.eqb_spec plan "free") as [->|Hfree].
  { right. eexists _, _, _. repeat split; [set_solver|set_solver]. }
  destruct (String.eqb_spec plan "basic") as [->|Hbasic].
  { right. eexists _, _, _. repeat split; [set_solver|set_solver]. }
  destruct (String.eqb_spec plan "pro") as [->|Hpro].
  { right. eexists _, _, _. repeat split; [set_solver|set_solver]. }
  destruct (String.eqb_spec plan "ultra") as [->|Hultra].
  { right. eexists _, _, _. repeat split; [set_solver|set_solver]. }
  destruct (String.eqb_spec plan "ultra_premium") as [->|Hpremium].
  { right. eexists _, _, _. repeat split; [set_solver|set_solver]. }
  left. eexists. split; [reflexivity|]. right; right. exists plan. split; [done|].
  rewrite !elem_of_cons, elem_of_nil. by intros [?|[?|[?|[?|[?|[]]]]]].
Qed.

(** ** A development server without proxies *)

Lemma fetch_cold_without_proxies (w : World) (url : string) (st : State) :
  production w = false →
  proxyList w = [] →
  cache st = ∅ →
  axiosWithRotation w url st
  = (Throw (Error "Failed to fetch data from the source after proxy retries."),
     with_user_agent w st).
Proof.
  intros Hdev Hempty Hcold.
  rewrite axiosWithRotation_miss_dev; [simpl; by rewrite Hempty| |done].
  unfold cached. by rewrite Hcold, lookup_empty.
Qed.

(** X25.  Outside production, with an empty proxy list and an empty cache,
    every chain returns its "unavailable" object without a single probe or
    upstream call, and the cache stays empty: such a server can serve
    nothing but placeholders. *)
Theorem chains_without_proxies (w : World) (c : category) (cityName : string) (st : State) :
  production w = false →
  proxyList w = [] →
  cache st = ∅ →
  ∃ st', fetch_category w c cityName st = (Return (unavailable c), st')
         ∧ cache st' = ∅
         ∧ probe_attempts (trace st') = probe_attempts (trace st)
         ∧ ∀ url, upstream_calls url (trace st') = upstream_calls url (trace st).
Proof.
  intros Hdev Hempty Hcold.
  assert (Hstep : ∀ url s, cache s = ∅ →
            axiosWithRotation w url s
            = (Throw (Error "Failed to fetch data from the source after proxy retries."),
               with_user_agent w s))
    by (intros; by apply fetch_cold_without_proxies).
  destruct c; simpl;
    unfold fetchCityInfo, fetchWeatherData, fetchNewsData, fetchEventsData,
           fetchTrafficData, weatherUrls, newsUrls; simpl;
    unfold attempt, returning, try_catch, geonames_body, wikipedia_body,
           geocoding_body, weather_body, news_body, events_body, traffic_body, bind;
    repeat (rewrite Hstep by done; simpl);
    eexists; (split; [reflexivity|]); simpl; by repeat split.
Qed.

Lemma chains_without_proxies_witness :
  ∃ st', fetch_category no_proxies CityInfo "Paris" fresh = (Return city_unavailable, st')
         ∧ ∀ url, upstream_calls url (trace st') = 0%nat.
Proof.
  destruct (chains_without_proxies no_proxies CityInfo "Paris" fresh)
    as (st' & Hrun & _ & _ & Hcalls).
  - reflexivity.
  - reflexivity.
  - reflexivity.
  - exists st'. split; [exact Hrun | exact Hcalls].
Defined.
